(** * OpenAI engineering blog feed generator: a shallow embedding

    Embedding of [src/feed_generators/openai_eng_blog.py] and the
    properties of its parser, fallback date, feed writer and entry point.

    Conventions.
    - A Python [str] is a [string]; an [ascii] stands for the code point
      of the same number (0..255), so the whitespace class below is
      Python's [str.isspace] restricted to that range.
    - The three regular expressions of the source are written as terms of
      a small regular-expression type and run by a backtracking matcher
      (ordered alternation, greedy repetition), which is the semantics of
      Python's [re] on the constructs used.
    - Library calls whose result is not computed by the source (the HTML
      tree and its anchors, [hash], the HTTP request, [mkdir] and the
      serialisation and writing of the feed by [rss_file]) are inputs of
      the model. *)

From Stdlib Require Import ZArith List Bool Ascii String Lia Arith Sorted.
From Stdlib Require Import Permutation.
Import ListNotations.

Local Open Scope string_scope.

(* ================================================================== *)
(** * Strings *)

Module Str.

Fixpoint take (n : nat) (s : string) : string :=
  match n, s with
  | S n', String c s' => String c (take n' s')
  | _, _ => EmptyString
  end.

Fixpoint drop (n : nat) (s : string) : string :=
  match n, s with
  | S n', String _ s' => drop n' s'
  | _, _ => s
  end.

(** [s.startswith(p)] *)
Fixpoint startswith (p s : string) : bool :=
  match p, s with
  | EmptyString, _ => true
  | String a p', String b s' => Ascii.eqb a b && startswith p' s'
  | String _ _, EmptyString => false
  end.

(** [needle in hay] *)
Fixpoint contains (needle hay : string) : bool :=
  startswith needle hay ||
  match hay with
  | EmptyString => false
  | String _ hay' => contains needle hay'
  end.

(** Code points for which [str.isspace] holds, below 256:
    TAB..CR, FS..US, SPACE, NEL and NBSP. *)
Definition is_space (c : ascii) : bool :=
  let n := N_of_ascii c in
  ((9 <=? n) && (n <=? 13) || (28 <=? n) && (n <=? 32)
   || (n =? 133) || (n =? 160))%N.

(** Decimal digits below 256: [0-9]. *)
Definition is_digit (c : ascii) : bool :=
  let n := N_of_ascii c in ((48 <=? n) && (n <=? 57))%N.

Definition newline : ascii := "010"%char.

Fixpoint lstrip (s : string) : string :=
  match s with
  | String c s' => if is_space c then lstrip s' else s
  | EmptyString => EmptyString
  end.

Fixpoint rstrip (s : string) : string :=
  match s with
  | String c s' =>
      match rstrip s' with
      | EmptyString => if is_space c then EmptyString else String c EmptyString
      | r => String c r
      end
  | EmptyString => EmptyString
  end.

(** [s.strip()] *)
Definition strip (s : string) : string := rstrip (lstrip s).

(** [s.replace(old, "")] for a non-empty [old]: occurrences are found
    left to right and do not overlap.  [skip] counts the characters of
    the current occurrence still to be dropped. *)
Fixpoint remove_from (old : string) (skip : nat) (s : string) : string :=
  match s with
  | EmptyString => EmptyString
  | String c s' =>
      match skip with
      | S k => remove_from old k s'
      | O =>
          if startswith old s
          then remove_from old (Nat.pred (String.length old)) s'
          else String c (remove_from old 0 s')
      end
  end.

Definition remove (old s : string) : string := remove_from old 0 s.

(** [d] occurs in [s] as a contiguous substring. *)
Definition occurs (d s : string) : Prop :=
  exists a b, s = a ++ d ++ b.

Definition lower (c : ascii) : ascii :=
  let n := N_of_ascii c in
  if ((65 <=? n) && (n <=? 90))%N then ascii_of_N (n + 32) else c.

Definition digit_val (c : ascii) : Z := Z.of_N (N_of_ascii c) - 48.

(** [int(s)] for a string of decimal digits with optional surrounding
    whitespace; [None] stands for [ValueError]. *)
Fixpoint int_digits (acc : Z) (s : string) : option Z :=
  match s with
  | EmptyString => Some acc
  | String c s' =>
      if is_digit c then int_digits (10 * acc + digit_val c) s' else None
  end.

Definition int (s : string) : option Z :=
  match strip s with
  | EmptyString => None
  | t => int_digits 0 t
  end.

End Str.

(* ================================================================== *)
(** * Exceptions *)

Inductive exn : Type :=
| ValueError (msg : string)
| TypeError (msg : string)
| OtherError (msg : string).

Inductive result (A : Type) : Type :=
| Ok (a : A)
| Raise (e : exn).
Arguments Ok {A} a.
Arguments Raise {A} e.

Definition bind {A B} (r : result A) (f : A -> result B) : result B :=
  match r with
  | Ok a => f a
  | Raise e => Raise e
  end.

Notation "x <- r ;; k" := (bind r (fun x => k))
  (at level 61, r at next level, right associativity).

Definition result_value {A} (r : result A) : option A :=
  match r with
  | Ok a => Some a
  | Raise _ => None
  end.

(** [try: r  except Exception: h] *)
Definition try_except {A} (r : result A) (h : exn -> result A) : result A :=
  match r with
  | Ok a => Ok a
  | Raise e => h e
  end.

(* ================================================================== *)
(** * Regular expressions ([re]) *)

Module Re.

Inductive re : Type :=
| Eps                                   (* empty pattern *)
| Chr (p : ascii -> bool)               (* one character of a class *)
| Seq (r1 r2 : re)                      (* r1 r2 *)
| Alt (r1 r2 : re)                      (* r1|r2, r1 tried first *)
| Star (p : ascii -> bool)              (* c*, greedy *)
| Plus (p : ascii -> bool)              (* c+, greedy *)
| Eos                                   (* $ *)
| Grp (name : string) (r : re).         (* (r) or (?P<name>r) *)

Definition groups := list (string * string).
Definition cont := groups -> string -> option (groups * string).

Fixpoint star (p : ascii -> bool) (k : cont) (g : groups) (s : string)
  : option (groups * string) :=
  match s with
  | String a s' =>
      if p a then
        match star p k g s' with
        | Some x => Some x
        | None => k g s
        end
      else k g s
  | EmptyString => k g s
  end.

(** [$] without MULTILINE: at the end, or before a final line feed. *)
Definition at_end (s : string) : bool :=
  match s with
  | EmptyString => true
  | String c EmptyString => Ascii.eqb c Str.newline
  | _ => false
  end.

(** [run r k g s]: match [r] at the start of [s], then continue with
    [k] on what is left; the first success in backtracking order. *)
Fixpoint run (r : re) (k : cont) (g : groups) (s : string)
  : option (groups * string) :=
  match r with
  | Eps => k g s
  | Chr p =>
      match s with
      | String a s' => if p a then k g s' else None
      | EmptyString => None
      end
  | Seq r1 r2 => run r1 (run r2 k) g s
  | Alt r1 r2 =>
      match run r1 k g s with
      | Some x => Some x
      | None => run r2 k g s
      end
  | Star p => star p k g s
  | Plus p =>
      match s with
      | String a s' => if p a then star p k g s' else None
      | EmptyString => None
      end
  | Eos => if at_end s then k g s else None
  | Grp name r1 =>
      run r1
        (fun g' s' =>
           k ((name, Str.take (String.length s - String.length s') s) :: g') s')
        g s
  end.

Definition accept : cont := fun g s => Some (g, s).

(** A match object: the groups and the text of group 0. *)
Record match_obj : Type := {
  m_groups : groups;
  m_group0 : string;
  m_start : nat
}.

(** [re.match(r, s)] (anchored at the start of [s]). *)
Definition match_at (r : re) (s : string) : option (groups * string) :=
  match run r accept [] s with
  | Some (g, rest) =>
      Some (g, Str.take (String.length s - String.length rest) s)
  | None => None
  end.

(** [re.search(r, s)]: the match at the leftmost position that has one. *)
Fixpoint search_from (r : re) (pos : nat) (s : string) : option match_obj :=
  match match_at r s with
  | Some (g, w) => Some {| m_groups := g; m_group0 := w; m_start := pos |}
  | None =>
      match s with
      | String _ s' => search_from r (S pos) s'
      | EmptyString => None
      end
  end.

Definition search (r : re) (s : string) : option match_obj :=
  search_from r 0 s.

(** [re.sub(r, '', s)] for a pattern that matches no empty string:
    every leftmost non-overlapping match is deleted.  [skip] counts the
    characters of the current match still to be dropped. *)
Fixpoint sub_from (r : re) (skip : nat) (s : string) : string :=
  match s with
  | EmptyString => EmptyString
  | String c s' =>
      match skip with
      | S k => sub_from r k s'
      | O =>
          match match_at r s with
          | Some (_, w) =>
              match String.length w with
              | S k => sub_from r k s'
              | O => String c (sub_from r 0 s')
              end
          | None => String c (sub_from r 0 s')
          end
      end
  end.

Definition sub_empty (r : re) (s : string) : string := sub_from r 0 s.

Fixpoint group (name : string) (g : groups) : string :=
  match g with
  | [] => EmptyString
  | (n, v) :: g' => if String.eqb n name then v else group name g'
  end.

(** Building blocks. *)
Fixpoint lit (s : string) : re :=
  match s with
  | EmptyString => Eps
  | String c s' => Seq (Chr (Ascii.eqb c)) (lit s')
  end.

(** A literal under IGNORECASE. *)
Fixpoint lit_i (s : string) : re :=
  match s with
  | EmptyString => Eps
  | String c s' =>
      Seq (Chr (fun a => Ascii.eqb (Str.lower a) (Str.lower c))) (lit_i s')
  end.

Fixpoint alts (rs : list re) : re :=
  match rs with
  | [] => Chr (fun _ => false)
  | [r] => r
  | r :: rs' => Alt r (alts rs')
  end.

Definition seqs (rs : list re) : re := fold_right Seq Eps rs.

Definition range (lo hi : ascii) : re :=
  Chr (fun a => (N_of_ascii lo <=? N_of_ascii a)%N
                && (N_of_ascii a <=? N_of_ascii hi)%N).

Definition digit : re := Chr Str.is_digit.                    (* \d *)
Definition digit_1_2 : re := Seq digit (Alt digit Eps).       (* \d{1,2} *)
Definition digit_4 : re := seqs [digit; digit; digit; digit]. (* \d{4} *)
Definition spaces : re := Plus Str.is_space.                  (* \s+ *)
Definition dot_star : re :=                                   (* .* *)
  Star (fun a => negb (Ascii.eqb a Str.newline)).

End Re.

(* ================================================================== *)
(** * [datetime] *)

Module Datetime.

Local Open Scope Z_scope.

Inductive tz : Type := UTC.          (* pytz.UTC *)

Record datetime : Type := {
  year : Z; month : Z; day : Z;
  hour : Z; minute : Z; second : Z;
  tzinfo : option tz
}.

Definition mk (y m d : Z) (t : option tz) : datetime :=
  {| year := y; month := m; day := d;
     hour := 0; minute := 0; second := 0; tzinfo := t |}.

(** [dt.replace(tzinfo=t)] *)
Definition replace_tzinfo (dt : datetime) (t : option tz) : datetime :=
  {| year := year dt; month := month dt; day := day dt;
     hour := hour dt; minute := minute dt; second := second dt;
     tzinfo := t |}.

Definition MAXORDINAL : Z := 3652059.

Definition is_leap (y : Z) : bool :=
  (y mod 4 =? 0) && (negb (y mod 100 =? 0) || (y mod 400 =? 0)).

Definition DAYS_IN_MONTH : list Z :=
  [-1; 31; 28; 31; 30; 31; 30; 31; 31; 30; 31; 30; 31].

Definition DAYS_BEFORE_MONTH : list Z :=
  [-1; 0; 31; 59; 90; 120; 151; 181; 212; 243; 273; 304; 334].

Definition tbl (t : list Z) (i : Z) : Z := nth (Z.to_nat i) t 0.

Definition b2z (b : bool) : Z := if b then 1 else 0.

Definition days_before_year (y : Z) : Z :=
  let y := y - 1 in y * 365 + y / 4 - y / 100 + y / 400.

Definition days_in_month (y m : Z) : Z :=
  if (m =? 2) && is_leap y then 29 else tbl DAYS_IN_MONTH m.

Definition days_before_month (y m : Z) : Z :=
  tbl DAYS_BEFORE_MONTH m + b2z ((2 <? m) && is_leap y).

Definition ymd2ord (y m d : Z) : Z :=
  days_before_year y + days_before_month y m + d.

Definition DI400Y : Z := days_before_year 401.
Definition DI100Y : Z := days_before_year 101.
Definition DI4Y : Z := days_before_year 5.

Definition ord2ymd (n : Z) : Z * Z * Z :=
  let n := n - 1 in
  let n400 := n / DI400Y in let n := n mod DI400Y in
  let y := n400 * 400 + 1 in
  let n100 := n / DI100Y in let n := n mod DI100Y in
  let n4 := n / DI4Y in let n := n mod DI4Y in
  let n1 := n / 365 in let n := n mod 365 in
  let y := y + n100 * 100 + n4 * 4 + n1 in
  if (n1 =? 4) || (n100 =? 4) then (y - 1, 12, 31)
  else
    let leapyear := (n1 =? 3) && (negb (n4 =? 24) || (n100 =? 3)) in
    let m := Z.shiftr (n + 50) 5 in
    let preceding := tbl DAYS_BEFORE_MONTH m + b2z ((2 <? m) && leapyear) in
    if n <? preceding then
      let m := m - 1 in
      let preceding :=
        preceding - (tbl DAYS_IN_MONTH m + b2z ((m =? 2) && leapyear)) in
      (y, m, n - preceding + 1)
    else (y, m, n - preceding + 1).

Definition toordinal (dt : datetime) : Z :=
  ymd2ord (year dt) (month dt) (day dt).

(** [dt + timedelta(days=n)] *)
Definition add_days (dt : datetime) (n : Z) : result datetime :=
  let o := toordinal dt + n in
  if (0 <? o) && (o <=? MAXORDINAL) then
    let '(y, m, d) := ord2ymd o in
    Ok {| year := y; month := m; day := d;
          hour := hour dt; minute := minute dt; second := second dt;
          tzinfo := tzinfo dt |}
  else Raise (OtherError "OverflowError: date value out of range").

(** The check made by the [date] constructor. *)
Definition valid_date (y m d : Z) : bool :=
  (1 <=? y) && (y <=? 9999) && (1 <=? m) && (m <=? 12)
  && (1 <=? d) && (d <=? days_in_month y m).

(** Comparison of two datetimes of the same awareness. *)
Definition fields (dt : datetime) : list Z :=
  [year dt; month dt; day dt; hour dt; minute dt; second dt].

Fixpoint lex_ltb (a b : list Z) : bool :=
  match a, b with
  | x :: a', y :: b' => (x <? y) || ((x =? y) && lex_ltb a' b')
  | [], _ :: _ => true
  | _, _ => false
  end.

Definition ltb (a b : datetime) : bool := lex_ltb (fields a) (fields b).

Definition aware (dt : datetime) : bool :=
  match tzinfo dt with Some _ => true | None => false end.

(** [a <= b] on calendar dates, used to state ranges. *)
Definition date_leb (a b : Z * Z * Z) : bool :=
  let '(y1, m1, d1) := a in
  let '(y2, m2, d2) := b in
  negb (lex_ltb [y2; m2; d2] [y1; m1; d1]).

Definition ymd (dt : datetime) : Z * Z * Z := (year dt, month dt, day dt).

(** ** [datetime.strptime(s, "%b %d, %Y")] in the C locale *)

Definition a_month : list string :=
  ["jan"; "feb"; "mar"; "apr"; "may"; "jun";
   "jul"; "aug"; "sep"; "oct"; "nov"; "dec"].

Fixpoint index_of (x : string) (l : list string) (i : Z) : option Z :=
  match l with
  | [] => None
  | y :: l' => if String.eqb x y then Some i else index_of x l' (i + 1)
  end.

Definition lower_str (s : string) : string :=
  string_of_list_ascii (map Str.lower (list_ascii_of_string s)).

(** The pattern [_strptime] builds from the format:
    [(?P<b>jan|...|dec)\s+(?P<d>3[0-1]|[1-2]\d|0[1-9]|[1-9]| [1-9]),]
    [\s+(?P<Y>\d\d\d\d)],
    compiled with IGNORECASE. *)
Definition format_regex : Re.re :=
  Re.seqs
    [ Re.Grp "b" (Re.alts (map Re.lit_i a_month));
      Re.spaces;
      Re.Grp "d"
        (Re.alts
           [ Re.Seq (Re.lit "3") (Re.range "0" "1");
             Re.Seq (Re.range "1" "2") Re.digit;
             Re.Seq (Re.lit "0") (Re.range "1" "9");
             Re.range "1" "9";
             Re.Seq (Re.lit " ") (Re.range "1" "9") ]);
      Re.lit ",";
      Re.spaces;
      Re.Grp "Y" Re.digit_4 ].

Definition strptime (s : string) : result datetime :=
  match Re.match_at format_regex s with
  | None =>
      Raise (ValueError "time data does not match format")
  | Some (g, w) =>
      if negb (String.length w =? String.length s)%nat then
        Raise (ValueError "unconverted data remains")
      else
        match index_of (lower_str (Re.group "b" g)) a_month 1,
              Str.int (Re.group "d" g), Str.int (Re.group "Y" g) with
        | Some m, Some d, Some y =>
            if valid_date y m d then Ok (mk y m d None)
            else Raise (ValueError "date value out of range")
        | _, _, _ => Raise (ValueError "invalid literal")
        end
  end.

End Datetime.

(* ================================================================== *)
(** * The program: [openai_eng_blog.py] *)

Import Datetime.

(** An anchor of the parsed tree, as the loop sees it: the outcome of
    [a.get("href", "")] and of [a.get_text(strip=True)].  Both are calls
    into the HTML library made inside the [try] block, so each either
    returns a string or raises. *)
Record Tag : Type := {
  get_href : result string;
  get_text : result string
}.

Definition anchor (href text : string) : Tag :=
  {| get_href := Ok href; get_text := Ok text |}.

Record Article : Type := {
  title : string;
  link : string;
  date : datetime;
  category : string;
  description : string
}.

Inductive level : Type := INFO | WARNING | ERROR.

Inductive message : Type :=
| FetchingPage
| FetchedPage
| ErrorFetching (e : exn)
| FoundArticle (t : string) (d : datetime)
| SkippingArticle (e : exn)
| ParsedArticles (n : nat)
| FeedGenerated
| FeedSaved (path : string)
| NoArticlesParsed
| FailedToGenerate (e : exn).

Definition months : list string :=
  ["Jan"; "Feb"; "Mar"; "Apr"; "May"; "Jun";
   "Jul"; "Aug"; "Sep"; "Oct"; "Nov"; "Dec"].

(** [(Jan|Feb|Mar|Apr|May|Jun|Jul|Aug|Sep|Oct|Nov|Dec)] *)
Definition month_re : Re.re := Re.Grp "1" (Re.alts (map Re.lit months)).

(** [(Jan|...|Dec)\s+(\d{1,2}),\s+(\d{4})] *)
Definition date_re : Re.re :=
  Re.seqs [ month_re; Re.spaces; Re.Grp "2" Re.digit_1_2; Re.lit ",";
            Re.spaces; Re.Grp "3" Re.digit_4 ].

(** [Engineering(Jan|...|Dec).*$] *)
Definition engineering_re : Re.re :=
  Re.seqs [ Re.lit "Engineering"; month_re; Re.dot_star; Re.Eos ].

(** ** The feed library's objects *)

Record FeedEntry : Type := {
  fe_title : string;
  fe_link : string;
  fe_description : string;
  fe_published : datetime;
  fe_category : string;
  fe_id : string
}.

Record FeedGenerator : Type := {
  fg_title : string;
  fg_description : string;
  fg_link : string;
  fg_language : string;
  fg_entries : list FeedEntry
}.

Inductive entry_order : Type := prepend | append.

(** [FeedGenerator.add_entry(feedEntry=None, order='prepend')]: the
    library inserts the entry at index 0 unless [order] is ['append'];
    the serialised feed lists [fg_entries] from first to last. *)
Definition add_entry (fg : FeedGenerator) (fe : FeedEntry) (o : entry_order)
  : FeedGenerator :=
  {| fg_title := fg_title fg; fg_description := fg_description fg;
     fg_link := fg_link fg; fg_language := fg_language fg;
     fg_entries := match o with
                   | prepend => fe :: fg_entries fg
                   | append => fg_entries fg ++ [fe]
                   end |}.

(** [fe.published(d)] refuses a datetime without time zone. *)
Definition published (d : datetime) : result datetime :=
  if aware d then Ok d
  else Raise (ValueError "Datetime object has no timezone info").

(** ** Effects of the entry point *)

Inductive event : Type :=
| Log (l : level) (m : message)
| HttpGet (url : string)
| MkDir (path : string)
| WriteFile (path : string) (fg : FeedGenerator).

(** The outcome, in one run, of the three calls of [main] that leave the
    program: the request, [mkdir] and [feed_generator.rss_file].  The
    last one raises when the file cannot be written, and also when the
    library refuses the feed it is given (an entry without title and
    description, a character that XML does not allow): its outcome
    belongs to the run, not to the file system alone. *)
Record Env : Type := {
  http_response : result string;   (* body of a 2xx response, or the error *)
  mkdir_result : result unit;      (* [mkdir(exist_ok=True)] *)
  write_result : result unit       (* [rss_file(path)] returned, or raised *)
}.

Section Program.

Local Open Scope list_scope.

(** Python's built-in [hash] on strings (seeded per process). *)
Variable hash : string -> Z.

(** [BeautifulSoup(html, "html.parser").find_all("a", href=True)],
    in document order. *)
Variable find_all_a_href : string -> list Tag.

Definition epoch : datetime := Datetime.mk 2023 1 1 (Some UTC).

Definition stable_fallback_date (identifier : string) : result datetime :=
  let hash_val := (Z.abs (hash identifier) mod 730)%Z in
  add_days epoch hash_val.

Inductive outcome : Type :=
| Skip                       (* [continue] *)
| Append (a : Article).      (* [articles.append(...)] *)

Definition resolve_link (href : string) : string :=
  if Str.startswith "/" href
  then ("https://openai.com" ++ href)%string
  else href.

(** Title and date from the anchor text (source lines 58-71). *)
Definition title_and_date (href text : string) : result (string * datetime) :=
  match Re.search date_re text with
  | Some date_match =>
      let date_str := Re.m_group0 date_match in
      let title := Str.strip (Re.sub_empty engineering_re text) in
      date <- try_except
                (d <- strptime date_str ;;
                 Ok (replace_tzinfo d (Some UTC)))
                (fun _ => stable_fallback_date href) ;;
      Ok (title, date)
  | None =>
      let title := Str.strip (Str.remove "Engineering" text) in
      date <- stable_fallback_date href ;;
      Ok (title, date)
  end.

(** The body of the [try] block for one anchor. *)
Definition loop_body (a : Tag) (articles : list Article) : result outcome :=
  href <- get_href a ;;
  text <- get_text a ;;
  if negb (Str.contains "/index/" href) then Ok Skip
  else if (String.length text <? 20)%nat then Ok Skip
  else
    td <- title_and_date href text ;;
    let '(title, date) := td in
    let link' := resolve_link href in
    if existsb (fun article => String.eqb (link article) link') articles
    then Ok Skip
    else Ok (Append {| title := title; link := link'; date := date;
                       category := "Engineering"; description := title |}).

Definition parser_state : Type := list Article * list event.

(** One iteration, with the [except Exception] handler of the loop. *)
Definition loop_step (st : parser_state) (a : Tag) : parser_state :=
  let '(articles, log) := st in
  match loop_body a articles with
  | Ok Skip => (articles, log)
  | Ok (Append art) =>
      (articles ++ [art],
       log ++ [Log INFO (FoundArticle (title art) (date art))])
  | Raise e => (articles, log ++ [Log WARNING (SkippingArticle e)])
  end.

Definition parse_loop (tags : list Tag) (st : parser_state) : parser_state :=
  fold_left loop_step tags st.

Definition parse_engineering_html (html_content : string) : parser_state :=
  let '(articles, log) := parse_loop (find_all_a_href html_content) ([], []) in
  (articles, log ++ [Log INFO (ParsedArticles (List.length articles))]).

(** ** Feed writer *)

Fixpoint insert_desc (x : Article) (l : list Article) : list Article :=
  match l with
  | [] => [x]
  | y :: l' =>
      if Datetime.ltb (date x) (date y) then y :: insert_desc x l'
      else x :: l
  end.

(** A stable sort by date, newest first. *)
Definition sort_desc (l : list Article) : list Article :=
  fold_right insert_desc [] l.

(** [sorted(articles, key=lambda x: x["date"], reverse=True)]:
    comparing an aware datetime with a naive one raises [TypeError]. *)
Definition sorted_by_date_reverse (articles : list Article)
  : result (list Article) :=
  if existsb (fun a => aware (date a)) articles
     && existsb (fun a => negb (aware (date a))) articles
  then Raise (TypeError "can't compare offset-naive and offset-aware datetimes")
  else Ok (sort_desc articles).

Definition new_feed : FeedGenerator :=
  {| fg_title := "OpenAI Engineering News";
     fg_description := "Latest engineering news and updates from OpenAI";
     fg_link := "https://openai.com/news/engineering";
     fg_language := "en";
     fg_entries := [] |}.

(** The [for article in articles_sorted] loop. *)
Fixpoint add_entries (fg : FeedGenerator) (l : list Article)
  : result FeedGenerator :=
  match l with
  | [] => Ok fg
  | article :: l' =>
      p <- published (date article) ;;
      add_entries
        (add_entry fg
           {| fe_title := title article; fe_link := link article;
              fe_description := description article; fe_published := p;
              fe_category := category article; fe_id := link article |}
           prepend)
        l'
  end.

Definition generate_rss_feed (articles : list Article)
  : result FeedGenerator * list event :=
  match sorted_by_date_reverse articles with
  | Raise e => (Raise e, [])
  | Ok articles_sorted =>
      match add_entries new_feed articles_sorted with
      | Raise e => (Raise e, [])
      | Ok fg => (Ok fg, [Log INFO FeedGenerated])
      end
  end.

(** ** Fetcher, persister, entry point *)

Definition fetch_engineering_page (env : Env) : result string * list event :=
  let pre := [Log INFO FetchingPage;
              HttpGet "https://openai.com/news/engineering/"] in
  match http_response env with
  | Ok text => (Ok text, pre ++ [Log INFO FetchedPage])
  | Raise e => (Raise e, pre ++ [Log ERROR (ErrorFetching e)])
  end.

Definition output_file (feed_name : string) : string :=
  ("feeds/feed_" ++ feed_name ++ ".xml")%string.

(** The trace lists the operations that completed.  A call of [rss_file]
    that raised adds nothing to it, and nothing is said about the state
    in which such a call leaves the target file. *)
Definition save_rss_feed (env : Env) (fg : FeedGenerator)
  : result string * list event :=
  match mkdir_result env with
  | Raise e => (Raise e, [])
  | Ok _ =>
      match write_result env with
      | Raise e => (Raise e, [MkDir "feeds"])
      | Ok _ =>
          let f := output_file "openai_engineering" in
          (Ok f, [MkDir "feeds"; WriteFile f fg; Log INFO (FeedSaved f)])
      end
  end.

Definition failed (e : exn) (tr : list event) : bool * list event :=
  (false, tr ++ [Log ERROR (FailedToGenerate e)]).

Definition main (env : Env) : bool * list event :=
  match fetch_engineering_page env with
  | (Raise e, t1) => failed e t1
  | (Ok html_content, t1) =>
      let '(articles, t2) := parse_engineering_html html_content in
      match articles with
      | [] => (false, t1 ++ t2 ++ [Log WARNING NoArticlesParsed])
      | _ :: _ =>
          match generate_rss_feed articles with
          | (Raise e, t3) => failed e (t1 ++ t2 ++ t3)
          | (Ok feed, t3) =>
              match save_rss_feed env feed with
              | (Raise e, t4) => failed e (t1 ++ t2 ++ t3 ++ t4)
              | (Ok _, t4) => (true, t1 ++ t2 ++ t3 ++ t4)
              end
          end
      end
  end.

End Program.

(** ** Sample inputs

    A hash and a document used to instantiate the statements below. *)

Definition length_hash (s : string) : Z := Z.of_nat (String.length s).

Definition fixed_document (tags : list Tag) : string -> list Tag :=
  fun _ => tags.

(** A run in which the three calls return. *)
Definition ok_env (html : string) : Env :=
  {| http_response := Ok html; mkdir_result := Ok tt; write_result := Ok tt |}.

(** What [stable_fallback_date] must satisfy for an offset of [k] days. *)
Definition fallback_ok (k : Z) : bool :=
  match add_days epoch k with
  | Ok d =>
      (toordinal d =? toordinal epoch + k)%Z
      && (hour d =? 0)%Z && (minute d =? 0)%Z && (second d =? 0)%Z
      && aware d
      && valid_date (year d) (month d) (day d)
      && date_leb (2023, 1, 1)%Z (ymd d)
      && date_leb (ymd d) (2024, 12, 31)%Z
  | Raise _ => false
  end.

(** The article an anchor yields when nothing has been accumulated yet. *)
Definition candidate (hash : string -> Z) (a : Tag) : list Article :=
  match loop_body hash a [] with
  | Ok (Append art) => [art]
  | _ => []
  end.

Definition candidates (hash : string -> Z) (tags : list Tag) : list Article :=
  flat_map (candidate hash) tags.

(** First-occurrence-wins deduplication by link, as a function of the
    candidates: the reading of the specification's step 6. *)
Fixpoint dedup_first (seen : list Article) (cs : list Article) : list Article :=
  match cs with
  | [] => seen
  | c :: cs' =>
      if existsb (fun x => String.eqb (link x) (link c)) seen
      then dedup_first seen cs'
      else dedup_first (seen ++ [c]) cs'
  end.

Definition entry_of (a : Article) : FeedEntry :=
  {| fe_title := title a; fe_link := link a;
     fe_description := description a; fe_published := date a;
     fe_category := category a; fe_id := link a |}.

Definition is_file_event (ev : event) : bool :=
  match ev with
  | MkDir _ | WriteFile _ _ => true
  | Log _ FeedGenerated | Log _ (FeedSaved _) => true
  | _ => false
  end.

(* ================================================================== *)
(** * Vocabulary of the statements *)

(** A well-formed timestamp in UTC. *)
Definition utc_timestamp (d : datetime) : Prop :=
  tzinfo d = Some UTC /\ valid_date (year d) (month d) (day d) = true.

Definition qualifies (href text : string) : Prop :=
  Str.contains "/index/" href = true /\ 20 <= String.length text.

Definition article_of (href text t : string) (d : datetime) : Article :=
  {| title := t; link := resolve_link href; date := d;
     category := "Engineering"; description := t |}.

Definition falls_back (text : string) : Prop :=
  Re.search date_re text = None
  \/ exists m e, Re.search date_re text = Some m
                 /\ strptime (Re.m_group0 m) = Raise e.

(** [x] is not older than [y]. *)
Definition not_older (x y : Article) : Prop :=
  Datetime.ltb (date x) (date y) = false.

Definition dated (t l : string) (y m d : Z) : Article :=
  {| title := t; link := l; date := Datetime.mk y m d (Some UTC);
     category := "Engineering"; description := t |}.

Definition three_articles : list Article :=
  [ dated "A" "https://openai.com/index/a" 2024 1 1;
    dated "B" "https://openai.com/index/b" 2024 3 1;
    dated "C" "https://openai.com/index/c" 2024 2 1 ].

Definition quiet (ev : event) : Prop := is_file_event ev = false.

Fixpoint all_chars (p : ascii -> bool) (s : string) : bool :=
  match s with
  | EmptyString => true
  | String c s' => p c && all_chars p s'
  end.

Fixpoint no_eos (r : Re.re) : bool :=
  match r with
  | Re.Seq r1 r2 | Re.Alt r1 r2 => no_eos r1 && no_eos r2
  | Re.Grp _ r1 => no_eos r1
  | Re.Eos => false
  | _ => true
  end.

(** [matches r w rest]: [r] can match the word [w] when [rest] follows. *)
Inductive matches : Re.re -> string -> string -> Prop :=
| M_eps rest : matches Re.Eps "" rest
| M_chr p c rest : p c = true -> matches (Re.Chr p) (String c "") rest
| M_seq r1 r2 w1 w2 rest :
    matches r1 w1 (w2 ++ rest) -> matches r2 w2 rest ->
    matches (Re.Seq r1 r2) (w1 ++ w2) rest
| M_alt_l r1 r2 w rest : matches r1 w rest -> matches (Re.Alt r1 r2) w rest
| M_alt_r r1 r2 w rest : matches r2 w rest -> matches (Re.Alt r1 r2) w rest
| M_star p w rest : all_chars p w = true -> matches (Re.Star p) w rest
| M_plus p w rest :
    w <> "" -> all_chars p w = true -> matches (Re.Plus p) w rest
| M_eos rest : Re.at_end rest = true -> matches Re.Eos "" rest
| M_grp n r w rest : matches r w rest -> matches (Re.Grp n r) w rest.

Definition not_newline (a : ascii) : bool := negb (Ascii.eqb a Str.newline).

Fixpoint ends_with_newline (s : string) : bool :=
  match s with
  | EmptyString => false
  | String c EmptyString => Ascii.eqb c Str.newline
  | String _ s' => ends_with_newline s'
  end.

Definition sample_tags : list Tag :=
  [ anchor "/index/new-model" "New Model ReleaseEngineeringJan 5, 2024";
    anchor "/news/" "Newsroom and company updates";
    anchor "https://openai.com/index/new-model"
           "New Model Release, againEngineeringJan 6, 2024";
    anchor "/index/short" "Short";
    anchor "/index/no-date" "An article whose anchor has no date" ].

Definition sample_article : Article :=
  dated "New Model Release" "https://openai.com/index/new-model" 2024 1 5.

Definition broken_tag : Tag :=
  {| get_href := Ok "/index/broken";
     get_text := Raise (OtherError "get_text failed") |}.

Definition unqualified_tags : list Tag :=
  [ anchor "/news/" "Newsroom and company updates";
    anchor "/index/short" "Short" ].

(** ** Vocabulary of the further properties *)

(** [x] was published no later than [y]. *)
Definition not_newer (x y : FeedEntry) : Prop :=
  Datetime.ltb (fe_published y) (fe_published x) = false.

Definition same_date (f : list Z) (a : Article) : bool :=
  if list_eq_dec Z.eq_dec (fields (date a)) f then true else false.

Definition naive_article (t l : string) (y m d : Z) : Article :=
  {| title := t; link := l; date := Datetime.mk y m d None;
     category := "Engineering"; description := t |}.

Definition fetch_trace : list event :=
  [Log INFO FetchingPage;
   HttpGet "https://openai.com/news/engineering/";
   Log INFO FetchedPage].

(** The title computed for an anchor text (source lines 58-70). *)
Definition title_of (text : string) : string :=
  match Re.search date_re text with
  | Some _ => Str.strip (Re.sub_empty engineering_re text)
  | None => Str.strip (Str.remove "Engineering" text)
  end.

(** The articles reported by the "Found article" lines of a log. *)
Definition found_lines (log : list event) : list (string * datetime) :=
  flat_map (fun ev => match ev with
                      | Log INFO (FoundArticle t d) => [(t, d)]
                      | _ => []
                      end) log.

Definition is_skip_warning (ev : event) : bool :=
  match ev with
  | Log WARNING (SkippingArticle _) => true
  | _ => false
  end.

(** One of the two library calls on the anchor raises. *)
Definition raises (a : Tag) : bool :=
  match get_href a, get_text a with
  | Ok _, Ok _ => false
  | _, _ => true
  end.


(** The date read from an anchor text, when there is a matched date
    that parses. *)
Definition parsed_date (text : string) : option datetime :=
  match Re.search date_re text with
  | Some m =>
      match strptime (Re.m_group0 m) with
      | Ok p => Some (replace_tzinfo p (Some UTC))
      | Raise _ => None
      end
  | None => None
  end.

Definition not_digit (c : ascii) : bool := negb (Str.is_digit c).

(** ** Dates as the page prints them: "Jan 5, 2024" or "Jan 05, 2024" *)

Definition digit_char (n : Z) : ascii := ascii_of_N (Z.to_N (48 + n)).

Definition day_string (d : Z) (pad : bool) : string :=
  if ((10 <=? d)%Z || pad)%bool
  then String (digit_char (d / 10)) (String (digit_char (d mod 10)) "")
  else String (digit_char d) "".

Definition year_string (y : Z) : string :=
  String (digit_char (y / 1000))
    (String (digit_char (y / 100 mod 10))
       (String (digit_char (y / 10 mod 10))
          (String (digit_char (y mod 10)) ""))).

Definition month_name (i : Z) : string := nth (Z.to_nat (i - 1)) months "".

Definition date_string (i d y : Z) (pad : bool) : string :=
  month_name i ++ " " ++ day_string d pad ++ ", " ++ year_string y.

(** [r], started on [w ++ rest], reaches [rest] with the groups changed
    by [f], and succeeds there if the continuation does. *)
Definition consumes (r : Re.re) (w rest : string)
           (f : Re.groups -> Re.groups) : Prop :=
  forall k g x, k (f g) rest = Some x -> Re.run r k g (w ++ rest) = Some x.

Definition year_check (n : nat) : bool :=
  match Str.int (year_string (Z.of_nat n)) with
  | Some v => (v =? Z.of_nat n)%Z
  | None => false
  end.

(** The day alternatives of [format_regex]. *)
Definition day_alts : Re.re :=
  Re.alts
    [ Re.Seq (Re.lit "3") (Re.range "0" "1");
      Re.Seq (Re.range "1" "2") Re.digit;
      Re.Seq (Re.lit "0") (Re.range "1" "9");
      Re.range "1" "9";
      Re.Seq (Re.lit " ") (Re.range "1" "9") ].

Definition date_groups (names : string * string * string) (i d y : Z)
           (pad : bool) : Re.groups :=
  let '(nm, nd, ny) := names in
  [(ny, year_string y); (nd, day_string d pad); (nm, month_name i)].

(** ** Further sample inputs *)


Definition sample_document (html : string) : list Tag :=
  if String.eqb html "twice" then (sample_tags ++ sample_tags)%list
  else sample_tags.


Definition offline_env : Env :=
  {| http_response := Raise (OtherError "503 Server Error");
     mkdir_result := Ok tt; write_result := Ok tt |}.

Definition read_only_env (html : string) : Env :=
  {| http_response := Ok html; mkdir_result := Ok tt;
     write_result := Raise (OtherError "Permission denied") |}.

Definition usual_anchor (i d y : Z) : Tag :=
  anchor "/index/new-model"
         ("New Model Release" ++ "Engineering"
          ++ date_string i d y false ++ "").

(* ================================================================== *)
(** * Properties *)

(** ** Strings *)

Lemma append_assoc (a b c : string) : (a ++ b) ++ c = a ++ (b ++ c).
Proof. induction a as [|x a IH]; simpl; [reflexivity | now rewrite IH]. Qed.

Lemma append_nil_r (a : string) : a ++ "" = a.
Proof. induction a as [|x a IH]; simpl; [reflexivity | now rewrite IH]. Qed.

Lemma length_append (a b : string) :
  String.length (a ++ b) = String.length a + String.length b.
Proof. induction a as [|x a IH]; simpl; [reflexivity | now rewrite IH]. Qed.

Lemma take_append (a b : string) : Str.take (String.length a) (a ++ b) = a.
Proof. induction a as [|x a IH]; simpl; [now destruct b | now rewrite IH]. Qed.

Lemma contains_nonempty (n h : string) :
  n <> "" -> Str.contains n h = true -> h <> "".
Proof.
  intros Hn Hc ->. destruct n; [congruence | discriminate].
Qed.

(** ** The fallback date *)

Lemma fallback_table :
  forallb (fun n => fallback_ok (Z.of_nat n)) (seq 0 730) = true.
Proof. vm_compute. reflexivity. Qed.

Lemma fallback_ok_range (k : Z) : (0 <= k < 730)%Z -> fallback_ok k = true.
Proof.
  intros Hk.
  pose proof (proj1 (forallb_forall _ _) fallback_table (Z.to_nat k)) as H.
  cbv beta in H. rewrite Z2Nat.id in H by lia. apply H.
  apply in_seq. lia.
Qed.

Lemma hash_val_range (h : Z) : (0 <= Z.abs h mod 730 < 730)%Z.
Proof. apply Z.mod_pos_bound. lia. Qed.

Lemma stable_fallback_date_ok (hash : string -> Z) (identifier : string) :
  exists d, stable_fallback_date hash identifier = Ok d
            /\ fallback_ok (Z.abs (hash identifier) mod 730) = true.
Proof.
  pose proof (fallback_ok_range _ (hash_val_range (hash identifier))) as H.
  unfold stable_fallback_date. unfold fallback_ok in H |- *.
  destruct (add_days epoch (Z.abs (hash identifier) mod 730)) as [d|e] eqn:E.
  - exists d. split; [reflexivity | exact H].
  - discriminate.
Qed.

Lemma stable_fallback_date_facts (hash : string -> Z) (identifier : string) :
  exists d,
    stable_fallback_date hash identifier = Ok d
    /\ toordinal d = (toordinal epoch + Z.abs (hash identifier) mod 730)%Z
    /\ valid_date (year d) (month d) (day d) = true
    /\ (hour d, minute d, second d) = (0, 0, 0)%Z
    /\ tzinfo d = Some UTC
    /\ date_leb (2023, 1, 1)%Z (ymd d) = true
    /\ date_leb (ymd d) (2024, 12, 31)%Z = true.
Proof.
  destruct (stable_fallback_date_ok hash identifier) as [d [Hd Hok]].
  exists d. split; [exact Hd|].
  unfold stable_fallback_date in Hd. unfold fallback_ok in Hok.
  rewrite Hd in Hok.
  repeat (apply andb_prop in Hok; destruct Hok as [Hok ?]).
  repeat match goal with
         | H : (_ =? _)%Z = true |- _ => apply Z.eqb_eq in H
         end.
  repeat split; try assumption.
  - congruence.
  - unfold aware in *.
    destruct (tzinfo d) as [[]|]; [reflexivity|discriminate].
Qed.

(** C2. [stable_fallback_date] returns the epoch 2023-01-01T00:00:00 UTC
    plus [abs(hash(identifier)) mod 730] days: it never raises, the result
    is a valid date at midnight UTC whose ordinal is the epoch's plus that
    offset, it lies between 2023-01-01 and 2024-12-31, and it depends only
    on the hash value of the identifier. *)
Theorem stable_fallback_date_spec (hash : string -> Z) (identifier : string) :
  let k := (Z.abs (hash identifier) mod 730)%Z in
  (0 <= k < 730)%Z
  /\ (exists d,
         stable_fallback_date hash identifier = Ok d
         /\ toordinal d = (toordinal epoch + k)%Z
         /\ valid_date (year d) (month d) (day d) = true
         /\ (hour d, minute d, second d) = (0, 0, 0)%Z
         /\ tzinfo d = Some UTC
         /\ date_leb (2023, 1, 1)%Z (ymd d) = true
         /\ date_leb (ymd d) (2024, 12, 31)%Z = true)
  /\ (forall hash' : string -> Z,
         hash' identifier = hash identifier ->
         stable_fallback_date hash' identifier
         = stable_fallback_date hash identifier).
Proof.
  intros k. split; [apply hash_val_range|]. split.
  - apply stable_fallback_date_facts.
  - intros hash' Heq. unfold stable_fallback_date. now rewrite Heq.
Qed.

Lemma stable_fallback_date_spec_witness :
  exists d, stable_fallback_date length_hash "/index/x" = Ok d
            /\ ymd d = (2023, 1, 9)%Z.
Proof.
  destruct (stable_fallback_date_spec length_hash "/index/x")
    as [_ [[d [Hd _]] _]].
  exists d. split; [exact Hd|].
  vm_compute in Hd. injection Hd as <-. reflexivity.
Defined.

(** ** One anchor *)

Section Parser.

Variable hash : string -> Z.

Local Open Scope list_scope.

Lemma strptime_valid (s : string) (d : datetime) :
  strptime s = Ok d ->
  valid_date (year d) (month d) (day d) = true /\ tzinfo d = None.
Proof.
  unfold strptime. intros H.
  destruct (Re.match_at format_regex s) as [[g w]|]; [|discriminate].
  destruct (negb _); [discriminate|].
  destruct (index_of _ _ _) as [m|]; [|discriminate].
  destruct (Str.int (Re.group "d" g)) as [dd|]; [|discriminate].
  destruct (Str.int (Re.group "Y" g)) as [y|]; [|discriminate].
  destruct (valid_date y m dd) eqn:V; [|discriminate].
  injection H as <-. simpl. auto.
Qed.

Lemma stable_fallback_date_utc (identifier : string) :
  exists d, stable_fallback_date hash identifier = Ok d /\ utc_timestamp d.
Proof.
  destruct (stable_fallback_date_facts hash identifier)
    as [d [Hd [_ [Hv [_ [Htz _]]]]]].
  exists d. repeat split; assumption.
Qed.

(** The date of an article is the parsed one or the fallback; neither
    branch raises. *)
Lemma title_and_date_cases (href text : string) :
  exists t d,
    title_and_date hash href text = Ok (t, d)
    /\ utc_timestamp d
    /\ ((exists m p,
            Re.search date_re text = Some m
            /\ strptime (Re.m_group0 m) = Ok p
            /\ d = replace_tzinfo p (Some UTC)
            /\ t = Str.strip (Re.sub_empty engineering_re text))
        \/ (exists m e,
               Re.search date_re text = Some m
               /\ strptime (Re.m_group0 m) = Raise e
               /\ stable_fallback_date hash href = Ok d
               /\ t = Str.strip (Re.sub_empty engineering_re text))
        \/ (Re.search date_re text = None
            /\ stable_fallback_date hash href = Ok d
            /\ t = Str.strip (Str.remove "Engineering" text))).
Proof.
  unfold title_and_date.
  destruct (stable_fallback_date_utc href) as [f [Hf Hu]].
  destruct (Re.search date_re text) as [m|].
  - destruct (strptime (Re.m_group0 m)) as [p|e] eqn:Hp.
    + exists (Str.strip (Re.sub_empty engineering_re text)),
             (replace_tzinfo p (Some UTC)).
      simpl. split; [reflexivity|]. split.
      * destruct (strptime_valid _ _ Hp) as [Hv _].
        split; [reflexivity | exact Hv].
      * left. exists m, p. auto.
    + exists (Str.strip (Re.sub_empty engineering_re text)), f.
      simpl. rewrite Hf. simpl. split; [reflexivity|]. split; [exact Hu|].
      right; left. exists m, e. auto.
  - exists (Str.strip (Str.remove "Engineering" text)), f.
    rewrite Hf. simpl. split; [reflexivity|]. split; [exact Hu|].
    right; right. auto.
Qed.

Lemma loop_body_append (a : Tag) (arts : list Article) (art : Article) :
  loop_body hash a arts = Ok (Append art) ->
  exists href text t d,
    get_href a = Ok href /\ get_text a = Ok text
    /\ qualifies href text
    /\ title_and_date hash href text = Ok (t, d)
    /\ existsb (fun x => String.eqb (link x) (resolve_link href)) arts = false
    /\ art = article_of href text t d.
Proof.
  unfold loop_body, bind. intros H.
  destruct (get_href a) as [href|]; [|discriminate].
  destruct (get_text a) as [text|]; [|discriminate].
  destruct (Str.contains "/index/" href) eqn:Hc; simpl in H; [|discriminate].
  destruct (String.length text <? 20)%nat eqn:Hl; [discriminate|].
  destruct (title_and_date hash href text) as [[t d]|] eqn:Ht; [|discriminate].
  destruct (existsb _ arts) eqn:Hx; [discriminate|].
  injection H as <-.
  exists href, text, t, d. apply Nat.ltb_ge in Hl.
  unfold qualifies. auto 10.
Qed.

Lemma loop_body_filtered (a : Tag) (arts : list Article) (href text : string) :
  get_href a = Ok href -> get_text a = Ok text ->
  Str.contains "/index/" href = false \/ String.length text < 20 ->
  loop_body hash a arts = Ok Skip.
Proof.
  intros Hh Ht Hf. unfold loop_body, bind. rewrite Hh, Ht.
  destruct (Str.contains "/index/" href); simpl; [|reflexivity].
  destruct Hf as [Hf|Hf]; [discriminate|].
  apply Nat.ltb_lt in Hf. now rewrite Hf.
Qed.

(** The handler of the loop is reached exactly when one of the two
    library calls on the anchor raises. *)
Lemma loop_body_raise (a : Tag) (arts : list Article) (e : exn) :
  loop_body hash a arts = Raise e <->
  get_href a = Raise e
  \/ (exists href, get_href a = Ok href /\ get_text a = Raise e).
Proof.
  unfold loop_body, bind. split.
  - intros H. destruct (get_href a) as [href|e1].
    + destruct (get_text a) as [text|e2].
      * exfalso.
        destruct (negb _); [discriminate|].
        destruct (String.length text <? 20)%nat; [discriminate|].
        destruct (title_and_date_cases href text) as [t [d [Ht _]]].
        rewrite Ht in H.
        destruct (existsb _ arts); discriminate.
      * right. exists href. split; [reflexivity|congruence].
    + left. congruence.
  - intros [H|[href [H1 H2]]].
    + now rewrite H.
    + now rewrite H1, H2.
Qed.

Lemma loop_body_qualifying (a : Tag) (arts : list Article)
      (href text t : string) (d : datetime) :
  get_href a = Ok href -> get_text a = Ok text ->
  Str.contains "/index/" href = true -> 20 <= String.length text ->
  title_and_date hash href text = Ok (t, d) ->
  loop_body hash a arts =
  if existsb (fun x => String.eqb (link x) (resolve_link href)) arts
  then Ok Skip else Ok (Append (article_of href text t d)).
Proof.
  intros Hh Ht Hc Hl Htd. unfold loop_body, bind.
  rewrite Hh, Ht, Hc. simpl negb. cbv iota.
  apply Nat.ltb_ge in Hl. rewrite Hl, Htd. reflexivity.
Qed.

(** The accumulator only matters through the duplicate check. *)
Lemma loop_body_dedup (a : Tag) (arts : list Article) :
  loop_body hash a arts =
  match loop_body hash a [] with
  | Ok (Append art) =>
      if existsb (fun x => String.eqb (link x) (link art)) arts
      then Ok Skip else Ok (Append art)
  | r => r
  end.
Proof.
  unfold loop_body, bind.
  destruct (get_href a) as [href|]; [|reflexivity].
  destruct (get_text a) as [text|]; [|reflexivity].
  destruct (negb _); [reflexivity|].
  destruct (String.length text <? 20)%nat; [reflexivity|].
  destruct (title_and_date hash href text) as [[t d]|]; [|reflexivity].
  simpl. reflexivity.
Qed.

(** ** The loop *)

Lemma parse_loop_app (t1 t2 : list Tag) (st : parser_state) :
  parse_loop hash (t1 ++ t2) st = parse_loop hash t2 (parse_loop hash t1 st).
Proof. apply fold_left_app. Qed.

(** The articles do not depend on what has been logged. *)
Lemma parse_loop_articles (tags : list Tag) (arts : list Article)
      (l1 l2 : list event) :
  fst (parse_loop hash tags (arts, l1)) = fst (parse_loop hash tags (arts, l2)).
Proof.
  revert arts l1 l2. induction tags as [|a tags IH]; intros; [reflexivity|].
  simpl. destruct (loop_body hash a arts) as [[|art]|e]; apply IH.
Qed.

Lemma parse_loop_dedup
      (tags : list Tag) (arts : list Article) (log : list event) :
  fst (parse_loop hash tags (arts, log))
  = dedup_first arts (candidates hash tags).
Proof.
  revert arts log. induction tags as [|a tags IH]; intros; [reflexivity|].
  simpl. unfold candidates in *. simpl.
  rewrite loop_body_dedup. unfold candidate.
  destruct (loop_body hash a []) as [[|art]|e]; simpl; try apply IH.
  destruct (existsb _ arts); apply IH.
Qed.

Lemma parse_loop_provenance
      (tags : list Tag) (st : parser_state) (art : Article) :
  In art (fst (parse_loop hash tags st)) ->
  In art (fst st)
  \/ exists a arts, In a tags /\ loop_body hash a arts = Ok (Append art).
Proof.
  revert st. induction tags as [|a tags IH]; intros [arts log] H; [now left|].
  simpl in H. apply IH in H. destruct H as [H|[a' [arts' [Hin Hb]]]].
  - destruct (loop_body hash a arts) as [[|art']|e] eqn:Hb; simpl in H;
      try (now left).
    apply in_app_or in H. destruct H as [H|[<-|[]]]; [now left|].
    right. exists a, arts. split; [now left | exact Hb].
  - right. exists a', arts'. split; [now right | exact Hb].
Qed.

(** The candidate of an anchor that passes the two tests. *)
Lemma candidate_qualifying (a : Tag) (href text : string) :
  get_href a = Ok href -> get_text a = Ok text ->
  Str.contains "/index/" href = true -> 20 <= String.length text ->
  exists t d,
    title_and_date hash href text = Ok (t, d)
    /\ candidate hash a = [article_of href text t d].
Proof.
  intros Hh Ht Hc Hl.
  destruct (title_and_date_cases href text) as [t [d [Htd _]]].
  exists t, d. split; [exact Htd|].
  unfold candidate.
  now rewrite (loop_body_qualifying a [] href text t d Hh Ht Hc Hl Htd).
Qed.

Lemma candidate_inv (a : Tag) (c : Article) :
  In c (candidate hash a) ->
  exists href text t d,
    get_href a = Ok href /\ get_text a = Ok text
    /\ qualifies href text
    /\ title_and_date hash href text = Ok (t, d)
    /\ c = article_of href text t d.
Proof.
  unfold candidate. intros H.
  destruct (loop_body hash a []) as [[|art]|e] eqn:Hb; try (now destruct H).
  destruct H as [<-|[]]. apply loop_body_append in Hb.
  destruct Hb as [href [text [t [d [Hh [Ht [Hq [Htd [_ ->]]]]]]]]].
  exists href, text, t, d. auto.
Qed.

End Parser.

(** ** Deduplication *)

Section Dedup.

Local Open Scope list_scope.

Lemma seen_link_true (seen : list Article) (c : Article) :
  existsb (fun x => String.eqb (link x) (link c)) seen = true <->
  In (link c) (map link seen).
Proof.
  rewrite existsb_exists, in_map_iff. split.
  - intros [x [Hx He]]. apply String.eqb_eq in He. now exists x.
  - intros [x [He Hx]]. exists x. split; [exact Hx|]. now apply String.eqb_eq.
Qed.

Lemma seen_link_false (seen : list Article) (c : Article) :
  existsb (fun x => String.eqb (link x) (link c)) seen = false <->
  ~ In (link c) (map link seen).
Proof.
  rewrite <- seen_link_true.
  destruct (existsb _ seen); split; intros; congruence.
Qed.

Lemma dedup_first_nodup (cs seen : list Article) :
  NoDup (map link seen) -> NoDup (map link (dedup_first seen cs)).
Proof.
  revert seen. induction cs as [|c cs IH]; intros seen Hs; [exact Hs|].
  simpl. destruct (existsb _ seen) eqn:Hx; [now apply IH|].
  apply IH. rewrite map_app. apply NoDup_app; [exact Hs| |].
  - simpl. constructor; [intros []|constructor].
  - intros l Hl [<-|[]]. apply seen_link_false in Hx. contradiction.
Qed.

Lemma dedup_first_keeps (cs seen : list Article) :
  incl seen (dedup_first seen cs).
Proof.
  revert seen. induction cs as [|c cs IH]; intros seen x Hx; [exact Hx|].
  simpl. destruct (existsb _ seen); apply IH; [exact Hx|].
  apply in_or_app. now left.
Qed.

Lemma dedup_first_covers (cs seen : list Article) (c : Article) :
  In c cs -> In (link c) (map link (dedup_first seen cs)).
Proof.
  revert seen. induction cs as [|c' cs IH]; intros seen [].
  - subst c'. simpl. destruct (existsb _ seen) eqn:Hx.
    + apply seen_link_true in Hx. apply in_map_iff in Hx.
      destruct Hx as [x [He Hx]]. rewrite <- He. apply in_map.
      now apply dedup_first_keeps.
    + apply in_map. apply dedup_first_keeps. apply in_or_app.
      right. now left.
  - simpl. destruct (existsb _ seen); now apply IH.
Qed.

Lemma dedup_first_first (cs seen : list Article) (art : Article) :
  In art (dedup_first seen cs) ->
  In art seen
  \/ exists c1 c2,
       cs = c1 ++ art :: c2
       /\ (forall x, In x c1 -> link x <> link art)
       /\ ~ In (link art) (map link seen).
Proof.
  revert seen. induction cs as [|c cs IH]; intros seen H; [now left|].
  simpl in H. destruct (existsb _ seen) eqn:Hx.
  - apply IH in H. destruct H as [H|[c1 [c2 [-> [H1 H2]]]]]; [now left|].
    right. exists (c :: c1), c2. split; [reflexivity|]. split; [|exact H2].
    intros x [<-|Hin]; [|now apply H1].
    apply seen_link_true in Hx. intros He. apply H2. now rewrite <- He.
  - apply seen_link_false in Hx.
    apply IH in H. destruct H as [H|[c1 [c2 [-> [H1 H2]]]]].
    + apply in_app_or in H. destruct H as [H|[<-|[]]]; [now left|].
      right. exists [], cs. split; [reflexivity|].
      split; [intros x []|exact Hx].
    + right. exists (c :: c1), c2. split; [reflexivity|].
      rewrite map_app in H2. split.
      * intros x [<-|Hin]; [|now apply H1].
        intros He. apply H2. apply in_or_app. right. simpl. now left.
      * intros Hin. apply H2. apply in_or_app. now left.
Qed.

Lemma dedup_first_app (a b seen : list Article) :
  dedup_first seen (a ++ b) = dedup_first (dedup_first seen a) b.
Proof.
  revert seen. induction a as [|c a IH]; intros seen; [reflexivity|].
  simpl. destruct (existsb _ seen); apply IH.
Qed.

Lemma dedup_first_subset (cs seen : list Article) (x : Article) :
  In x (dedup_first seen cs) -> In x seen \/ In x cs.
Proof.
  intros H. apply dedup_first_first in H.
  destruct H as [H|[c1 [c2 [-> _]]]]; [now left|].
  right. apply in_or_app. right. now left.
Qed.

(** The first candidate with a link that has not been seen is kept. *)
Lemma dedup_first_places (c1 c2 seen : list Article) (art : Article) :
  (forall x, In x seen -> link x <> link art) ->
  (forall x, In x c1 -> link x <> link art) ->
  In art (dedup_first seen (c1 ++ art :: c2)).
Proof.
  intros Hs Hc. rewrite dedup_first_app. simpl.
  assert (Hn : ~ In (link art) (map link (dedup_first seen c1))).
  { intros Hin. apply in_map_iff in Hin. destruct Hin as [x [Hl Hx]].
    apply dedup_first_subset in Hx.
    destruct Hx as [Hx|Hx]; [now apply (Hs x)|now apply (Hc x)]. }
  rewrite (proj2 (seen_link_false _ art) Hn).
  apply dedup_first_keeps. apply in_or_app. right. now left.
Qed.

Lemma nodup_link_unique (l : list Article) (x y : Article) :
  NoDup (map link l) -> In x l -> In y l -> link x = link y -> x = y.
Proof.
  induction l as [|z l IH]; intros Hn Hx Hy E; [destruct Hx|].
  simpl in Hn. inversion Hn as [|? ? Hz Hn']; subst.
  destruct Hx as [->|Hx], Hy as [->|Hy].
  - reflexivity.
  - exfalso. apply Hz. rewrite E. now apply in_map.
  - exfalso. apply Hz. rewrite <- E. now apply in_map.
  - now apply IH.
Qed.

End Dedup.

(** ** The parser *)

Section ParserClaims.

Variable hash : string -> Z.
Variable find_all_a_href : string -> list Tag.

Local Open Scope list_scope.

Lemma parse_articles (html : string) :
  fst (parse_engineering_html hash find_all_a_href html)
  = fst (parse_loop hash (find_all_a_href html) ([], [])).
Proof.
  unfold parse_engineering_html.
  now destruct (parse_loop hash (find_all_a_href html) ([], [])).
Qed.

(** C1. An anchor with a qualifying href and the text
    "New Model ReleaseEngineeringJan 5, 2024" yields one article, dated
    2024-01-05 UTC and titled "New Model Release": the date pattern
    matches "Jan 5, 2024" at offset 28, that string parses to
    2024-01-05, and the title is the text cut at "EngineeringJan". *)
Theorem parse_title_extraction (html href : string) :
  find_all_a_href html
    = [anchor href "New Model ReleaseEngineeringJan 5, 2024"] ->
  Str.contains "/index/" href = true ->
  fst (parse_engineering_html hash find_all_a_href html)
    = [ {| title := "New Model Release";
           link := resolve_link href;
           date := Datetime.mk 2024 1 5 (Some UTC);
           category := "Engineering";
           description := "New Model Release" |} ]
  /\ option_map (fun m => (Re.m_start m, Re.m_group0 m))
       (Re.search date_re "New Model ReleaseEngineeringJan 5, 2024")
     = Some (28, "Jan 5, 2024")
  /\ strptime "Jan 5, 2024" = Ok (Datetime.mk 2024 1 5 None)
  /\ Re.sub_empty engineering_re "New Model ReleaseEngineeringJan 5, 2024"
     = "New Model Release".
Proof.
  intros Hdoc Hhref. split; [|vm_compute; auto].
  rewrite parse_articles, Hdoc. unfold parse_loop, fold_left, loop_step.
  rewrite (loop_body_qualifying hash _ [] href
             "New Model ReleaseEngineeringJan 5, 2024"
             "New Model Release" (Datetime.mk 2024 1 5 (Some UTC)));
    try reflexivity; try assumption.
  vm_compute. lia.
Qed.

(** C3. The links of the returned articles are pairwise distinct.  A
    link is the href of its anchor, prefixed with "https://openai.com"
    when the href starts with "/" and used as it is otherwise; every
    anchor that passes the two tests has its link in the result, and
    every link of the result comes from such an anchor.  When several
    anchors resolve to one link, the article of the first of them is in
    the result and is the only article with that link: the later ones
    are dropped.  The list is the first-occurrence-wins deduplication of
    the candidates. *)
Theorem parse_links_unique (html : string) :
  let result := fst (parse_engineering_html hash find_all_a_href html) in
  let cs := candidates hash (find_all_a_href html) in
  let resolved := fun href : string =>
    if Str.startswith "/" href
    then ("https://openai.com" ++ href)%string else href in
  NoDup (map link result)
  /\ result = dedup_first [] cs
  /\ (forall art, In art result ->
        exists c1 c2, cs = c1 ++ art :: c2
                      /\ forall x, In x c1 -> link x <> link art)
  /\ (forall c, In c cs -> In (link c) (map link result))
  /\ (forall a href text,
        In a (find_all_a_href html) ->
        get_href a = Ok href -> get_text a = Ok text ->
        Str.contains "/index/" href = true -> 20 <= String.length text ->
        In (resolved href) (map link result))
  /\ (forall art, In art result ->
        exists a href text,
          In a (find_all_a_href html)
          /\ get_href a = Ok href /\ get_text a = Ok text
          /\ Str.contains "/index/" href = true
          /\ 20 <= String.length text
          /\ link art = resolved href)
  /\ (forall t1 a t2 href text,
        find_all_a_href html = t1 ++ a :: t2 ->
        get_href a = Ok href -> get_text a = Ok text ->
        Str.contains "/index/" href = true -> 20 <= String.length text ->
        (forall b hb tb,
            In b t1 -> get_href b = Ok hb -> get_text b = Ok tb ->
            Str.contains "/index/" hb = true -> 20 <= String.length tb ->
            resolved hb <> resolved href) ->
        exists t d,
          title_and_date hash href text = Ok (t, d)
          /\ In {| title := t; link := resolved href; date := d;
                   category := "Engineering"; description := t |} result
          /\ forall x, In x result -> link x = resolved href ->
                       x = {| title := t; link := resolved href; date := d;
                              category := "Engineering";
                              description := t |}).
Proof.
  intros result cs resolved.
  assert (Hr : result = dedup_first [] cs).
  { unfold result. rewrite parse_articles. apply parse_loop_dedup. }
  assert (Hn : NoDup (map link result)).
  { rewrite Hr. apply dedup_first_nodup. constructor. }
  split; [exact Hn|]. split; [exact Hr|]. split; [|split; [|split; [|split]]].
  - intros art Hin. rewrite Hr in Hin.
    apply dedup_first_first in Hin.
    destruct Hin as [[]|[c1 [c2 [H1 [H2 _]]]]]. now exists c1, c2.
  - intros c Hc. rewrite Hr. now apply dedup_first_covers.
  - intros a href text Ha Hh Ht Hc Hl.
    destruct (candidate_qualifying hash a href text Hh Ht Hc Hl)
      as [t [d [_ Hcand]]].
    assert (Hin : In (article_of href text t d) cs).
    { unfold cs, candidates. apply in_flat_map. exists a.
      split; [exact Ha|]. rewrite Hcand. now left. }
    rewrite Hr. apply (dedup_first_covers cs [] _ Hin).
  - intros art Hin. unfold result in Hin. rewrite parse_articles in Hin.
    apply parse_loop_provenance in Hin.
    destruct Hin as [[]|[a [arts [Ha Hb]]]].
    apply loop_body_append in Hb.
    destruct Hb as [href [text [t [d [Hh [Ht [[Hc Hl] [_ [_ ->]]]]]]]]].
    exists a, href, text. simpl. auto 10.
  - intros t1 a t2 href text Hdoc Hh Ht Hc Hl Hfirst.
    destruct (candidate_qualifying hash a href text Hh Ht Hc Hl)
      as [t [d [Htd Hcand]]].
    exists t, d. split; [exact Htd|].
    assert (Hin : In (article_of href text t d) result).
    { rewrite Hr. unfold cs, candidates. rewrite Hdoc, flat_map_app.
      simpl flat_map. rewrite Hcand. simpl app.
      apply dedup_first_places; [intros x []|].
      intros x Hx. apply in_flat_map in Hx. destruct Hx as [b [Hb Hxb]].
      apply candidate_inv in Hxb.
      destruct Hxb as [hb [tb [t' [d' [Hhb [Htb [[Hcb Hlb] [_ ->]]]]]]]].
      simpl. apply (Hfirst b hb tb); assumption. }
    split; [exact Hin|].
    intros x Hx Hlx.
    apply (nodup_link_unique result x (article_of href text t d) Hn Hx Hin).
    exact Hlx.
Qed.

(** C4. Every returned article comes from an anchor of the document
    whose href contains "/index/" and whose text has at least 20
    characters; an anchor that fails either test is skipped whatever
    has been accumulated. *)
Theorem parse_anchor_filter (html : string) :
  (forall art,
     In art (fst (parse_engineering_html hash find_all_a_href html)) ->
     exists a href text,
       In a (find_all_a_href html)
       /\ get_href a = Ok href /\ get_text a = Ok text
       /\ Str.contains "/index/" href = true
       /\ 20 <= String.length text
       /\ link art = resolve_link href
       /\ title_and_date hash href text = Ok (title art, date art))
  /\ (forall a href text st,
        get_href a = Ok href -> get_text a = Ok text ->
        Str.contains "/index/" href = false \/ String.length text < 20 ->
        loop_step hash st a = st).
Proof.
  split.
  - intros art Hin. rewrite parse_articles in Hin.
    apply parse_loop_provenance in Hin.
    destruct Hin as [[]|[a [arts [Ha Hb]]]].
    apply loop_body_append in Hb.
    destruct Hb as [href [text [t [d [Hh [Ht [[Hc Hl] [Htd [_ ->]]]]]]]]].
    exists a, href, text. simpl. auto 10.
  - intros a href text [arts log] Hh Ht Hf. unfold loop_step.
    now rewrite (loop_body_filtered hash a arts href text Hh Ht Hf).
Qed.

(** C5. Every returned article has a non-empty link and a date that is
    a valid calendar date carrying the UTC time zone. *)
Theorem parse_link_and_date (html : string) (art : Article) :
  In art (fst (parse_engineering_html hash find_all_a_href html)) ->
  link art <> ""%string
  /\ tzinfo (date art) = Some UTC
  /\ valid_date (year (date art)) (month (date art)) (day (date art)) = true.
Proof.
  intros Hin. rewrite parse_articles in Hin.
  apply parse_loop_provenance in Hin.
  destruct Hin as [[]|[a [arts [Ha Hb]]]].
  apply loop_body_append in Hb.
  destruct Hb as [href [text [t [d [Hh [Ht [[Hc Hl] [Htd [_ ->]]]]]]]]].
  simpl. split.
  - assert (Hne : href <> ""%string).
    { apply (contains_nonempty "/index/"); [discriminate | exact Hc]. }
    unfold resolve_link. destruct (Str.startswith "/" href); [|exact Hne].
    destruct href; [congruence|discriminate].
  - destruct (title_and_date_cases hash href text) as [t' [d' [Ht' [Hu _]]]].
    rewrite Htd in Ht'. injection Ht' as -> ->. exact Hu.
Qed.

End ParserClaims.

Section LoopClaims.

Variable hash : string -> Z.

Local Open Scope list_scope.

Lemma parse_loop_log
      (tags : list Tag) (arts : list Article) (log : list event) :
  exists l, snd (parse_loop hash tags (arts, log)) = log ++ l.
Proof.
  revert arts log. induction tags as [|a tags IH]; intros.
  - exists []. simpl. now rewrite app_nil_r.
  - simpl. destruct (loop_body hash a arts) as [[|art]|e].
    + apply IH.
    + destruct (IH (arts ++ [art])
                   (log ++ [Log INFO (FoundArticle (title art) (date art))]))
        as [l Hl].
      rewrite Hl, <- app_assoc. eauto.
    + destruct (IH arts (log ++ [Log WARNING (SkippingArticle e)])) as [l Hl].
      rewrite Hl, <- app_assoc. eauto.
Qed.

(** C9. An exception raised while one anchor is processed is caught by
    the loop: a warning carrying it is logged, the accumulated articles
    are left as they were, and the remaining anchors are processed, so
    the articles returned are those of the document without that anchor:
    the first-occurrence-wins deduplication of the candidates of the
    other anchors, in which every other anchor that passes the two tests
    has its link.  The parser itself returns a value for every input;
    the handler is reached exactly when a library call on the anchor
    raises. *)
Theorem parse_loop_skips_raising_anchor
        (t1 t2 : list Tag) (a : Tag) (e : exn) (st : parser_state) :
  loop_body hash a (fst (parse_loop hash t1 st)) = Raise e ->
  let '(arts, log) := parse_loop hash t1 st in
  loop_step hash (arts, log) a
    = (arts, log ++ [Log WARNING (SkippingArticle e)])
  /\ parse_loop hash (t1 ++ a :: t2) st
     = parse_loop hash t2 (arts, log ++ [Log WARNING (SkippingArticle e)])
  /\ fst (parse_loop hash (t1 ++ a :: t2) st)
     = fst (parse_loop hash (t1 ++ t2) st)
  /\ In (Log WARNING (SkippingArticle e))
        (snd (parse_loop hash (t1 ++ a :: t2) st))
  /\ (get_href a = Raise e
      \/ exists href, get_href a = Ok href /\ get_text a = Raise e)
  /\ fst (parse_loop hash (t1 ++ a :: t2) st)
     = dedup_first (fst st) (candidates hash (t1 ++ t2))
  /\ (forall x, In x (fst st) ->
        In x (fst (parse_loop hash (t1 ++ a :: t2) st)))
  /\ (forall b href text,
        In b (t1 ++ t2) ->
        get_href b = Ok href -> get_text b = Ok text ->
        Str.contains "/index/" href = true -> 20 <= String.length text ->
        In (if Str.startswith "/" href
            then ("https://openai.com" ++ href)%string else href)
           (map link (fst (parse_loop hash (t1 ++ a :: t2) st)))).
Proof.
  intros H.
  assert (Hraise : get_href a = Raise e
                   \/ exists href, get_href a = Ok href
                                   /\ get_text a = Raise e).
  { now apply (loop_body_raise hash a (fst (parse_loop hash t1 st)) e). }
  assert (Hskip : fst (parse_loop hash (t1 ++ a :: t2) st)
                  = fst (parse_loop hash (t1 ++ t2) st)).
  { rewrite !parse_loop_app.
    destruct (parse_loop hash t1 st) as [arts log]. simpl in H.
    change (parse_loop hash (a :: t2) (arts, log))
      with (parse_loop hash t2 (loop_step hash (arts, log) a)).
    unfold loop_step at 1. rewrite H. apply parse_loop_articles. }
  assert (Hd : fst (parse_loop hash (t1 ++ a :: t2) st)
               = dedup_first (fst st) (candidates hash (t1 ++ t2))).
  { rewrite Hskip. destruct st as [arts0 log0]. apply parse_loop_dedup. }
  assert (Hkeep : forall x, In x (fst st) ->
                    In x (fst (parse_loop hash (t1 ++ a :: t2) st))).
  { intros x Hx. rewrite Hd. now apply dedup_first_keeps. }
  assert (Hall : forall b href text,
             In b (t1 ++ t2) ->
             get_href b = Ok href -> get_text b = Ok text ->
             Str.contains "/index/" href = true -> 20 <= String.length text ->
             In (if Str.startswith "/" href
                 then ("https://openai.com" ++ href)%string else href)
                (map link (fst (parse_loop hash (t1 ++ a :: t2) st)))).
  { intros b href text Hb Hh Ht Hc Hl.
    destruct (candidate_qualifying hash b href text Hh Ht Hc Hl)
      as [t [d [_ Hcand]]].
    assert (Hin : In (article_of href text t d) (candidates hash (t1 ++ t2))).
    { unfold candidates. apply in_flat_map. exists b.
      split; [exact Hb|]. rewrite Hcand. now left. }
    rewrite Hd. apply (dedup_first_covers _ (fst st) _ Hin). }
  revert Hskip Hd Hkeep Hall. rewrite !parse_loop_app.
  destruct (parse_loop hash t1 st) as [arts log]. simpl in H.
  intros Hskip Hd Hkeep Hall.
  assert (Hs : loop_step hash (arts, log) a
               = (arts, log ++ [Log WARNING (SkippingArticle e)])).
  { unfold loop_step. now rewrite H. }
  assert (Hc : parse_loop hash (a :: t2) (arts, log)
               = parse_loop hash t2
                   (arts, log ++ [Log WARNING (SkippingArticle e)])).
  { change (parse_loop hash (a :: t2) (arts, log))
      with (parse_loop hash t2 (loop_step hash (arts, log) a)).
    now rewrite Hs. }
  split; [exact Hs|]. rewrite Hc in *.
  split; [reflexivity|]. split; [exact Hskip|]. split.
  - destruct (parse_loop_log t2 arts (log ++ [Log WARNING (SkippingArticle e)]))
      as [l Hl].
    rewrite Hl. apply in_or_app. left. apply in_or_app. right. now left.
  - split; [exact Hraise|]. split; [exact Hd|]. split; assumption.
Qed.

Lemma title_and_date_fallback (href text : string) :
  falls_back text ->
  exists t d, title_and_date hash href text = Ok (t, d)
              /\ stable_fallback_date hash href = Ok d.
Proof.
  intros Hf.
  destruct (title_and_date_cases hash href text)
    as [t [d [Htd [_ [H|[H|H]]]]]]; exists t, d; (split; [exact Htd|]).
  - exfalso. destruct H as [m [p [Hs [Hp _]]]].
    destruct Hf as [Hf|[m' [e [Hs' Hp']]]]; congruence.
  - now destruct H as [m [e [_ [_ [H _]]]]].
  - now destruct H as [_ [H _]].
Qed.

Lemma fallback_dates_differ (h1 h2 : string) (d1 d2 : datetime) :
  stable_fallback_date hash h1 = Ok d1 ->
  stable_fallback_date hash h2 = Ok d2 ->
  (Z.abs (hash h1) mod 730 <> Z.abs (hash h2) mod 730)%Z ->
  d1 <> d2.
Proof.
  intros H1 H2 Hne ->.
  destruct (stable_fallback_date_facts hash h1) as [x1 [E1 [O1 _]]].
  destruct (stable_fallback_date_facts hash h2) as [x2 [E2 [O2 _]]].
  rewrite H1 in E1. rewrite H2 in E2.
  injection E1 as <-. injection E2 as <-. lia.
Qed.

(** C10. When the parser falls back to the hash-based date (no date
    pattern in the text, or a matched date that does not parse), the
    date of the article is [stable_fallback_date] of the href as
    written on the anchor, while its link is the resolved href.  So the
    anchors "/index/x" and "https://openai.com/index/x" give articles
    with the same link whose dates differ whenever the two spellings
    hash to different residues modulo 730. *)
Theorem fallback_date_uses_raw_href (text : string) :
  falls_back text ->
  20 <= String.length text ->
  (forall a arts art href,
      get_href a = Ok href -> get_text a = Ok text ->
      loop_body hash a arts = Ok (Append art) ->
      stable_fallback_date hash href = Ok (date art)
      /\ link art = resolve_link href)
  /\ (exists a1 a2,
         fst (parse_loop hash [anchor "/index/x" text] ([], [])) = [a1]
         /\ fst (parse_loop hash [anchor "https://openai.com/index/x" text]
                            ([], [])) = [a2]
         /\ link a1 = link a2
         /\ stable_fallback_date hash "/index/x" = Ok (date a1)
         /\ stable_fallback_date hash "https://openai.com/index/x"
            = Ok (date a2)
         /\ ((Z.abs (hash "/index/x") mod 730
              <> Z.abs (hash "https://openai.com/index/x") mod 730)%Z ->
             date a1 <> date a2)).
Proof.
  intros Hf Hl. split.
  - intros a arts art href Hh Ht Hb.
    apply loop_body_append in Hb.
    destruct Hb as [href' [text' [t [d [Hh' [Ht' [_ [Htd [_ ->]]]]]]]]].
    rewrite Hh in Hh'. rewrite Ht in Ht'.
    injection Hh' as <-. injection Ht' as <-. simpl.
    destruct (title_and_date_fallback href text Hf) as [t' [d' [E Hd]]].
    rewrite Htd in E. injection E as -> ->. auto.
  - destruct (title_and_date_fallback "/index/x" text Hf) as [t1 [d1 [E1 F1]]].
    destruct (title_and_date_fallback "https://openai.com/index/x" text Hf)
      as [t2 [d2 [E2 F2]]].
    exists (article_of "/index/x" text t1 d1),
           (article_of "https://openai.com/index/x" text t2 d2).
    unfold parse_loop, fold_left, loop_step.
    rewrite (loop_body_qualifying hash _ [] "/index/x" text t1 d1);
      try reflexivity; try assumption.
    rewrite (loop_body_qualifying hash _ [] "https://openai.com/index/x"
                                  text t2 d2);
      try reflexivity; try assumption.
    simpl. repeat split; try assumption.
    intros Hne. now apply (fallback_dates_differ "/index/x"
                             "https://openai.com/index/x").
Qed.

End LoopClaims.

(** ** The feed writer *)

Section FeedWriter.

Local Open Scope list_scope.

Lemma lex_ltb_asym (a b : list Z) :
  lex_ltb a b = true -> lex_ltb b a = false.
Proof.
  revert b. induction a as [|x a IH]; intros [|y b] H; simpl in *;
    try reflexivity; try discriminate.
  apply orb_true_iff in H. apply orb_false_iff.
  destruct H as [H|H].
  - apply Z.ltb_lt in H. split; [apply Z.ltb_ge; lia|].
    apply andb_false_iff. left. apply Z.eqb_neq. lia.
  - apply andb_true_iff in H. destruct H as [He Hl].
    apply Z.eqb_eq in He. subst y. split; [apply Z.ltb_irrefl|].
    apply andb_false_iff. right. now apply IH.
Qed.

Lemma insert_desc_hd (x y : Article) (l : list Article) :
  not_older y x -> HdRel not_older y l -> HdRel not_older y (insert_desc x l).
Proof.
  intros Hyx Hl. destruct l as [|z l]; simpl; [now constructor|].
  destruct (Datetime.ltb (date x) (date z)); constructor;
    [now inversion Hl | exact Hyx].
Qed.

Lemma insert_desc_sorted (x : Article) (l : list Article) :
  Sorted not_older l -> Sorted not_older (insert_desc x l).
Proof.
  induction l as [|y l IH]; intros Hs; simpl.
  - repeat constructor.
  - inversion Hs as [|? ? Hs' Hh]; subst.
    destruct (Datetime.ltb (date x) (date y)) eqn:E.
    + constructor; [now apply IH|].
      apply insert_desc_hd; [|exact Hh].
      unfold not_older, Datetime.ltb in *. now apply lex_ltb_asym.
    + constructor; [exact Hs|]. constructor. exact E.
Qed.

(** Before insertion the articles are ordered newest first. *)
Lemma sort_desc_sorted (l : list Article) : Sorted not_older (sort_desc l).
Proof.
  induction l as [|x l IH]; simpl; [constructor|].
  now apply insert_desc_sorted.
Qed.

Lemma insert_desc_aware (x : Article) (l : list Article) :
  aware (date x) = true ->
  Forall (fun a => aware (date a) = true) l ->
  Forall (fun a => aware (date a) = true) (insert_desc x l).
Proof.
  intros Hx Hl. induction Hl as [|y l Hy Hl IH]; simpl.
  - now repeat constructor.
  - destruct (Datetime.ltb (date x) (date y)); repeat constructor; assumption.
Qed.

Lemma sort_desc_aware (l : list Article) :
  Forall (fun a => aware (date a) = true) l ->
  Forall (fun a => aware (date a) = true) (sort_desc l).
Proof.
  induction 1 as [|x l Hx Hl IH]; simpl; [constructor|].
  now apply insert_desc_aware.
Qed.

Lemma add_entries_prepends (l : list Article) (fg : FeedGenerator) :
  Forall (fun a => aware (date a) = true) l ->
  exists fg',
    add_entries fg l = Ok fg'
    /\ fg_entries fg' = rev (map entry_of l) ++ fg_entries fg.
Proof.
  intros Hl. revert fg. induction Hl as [|x l Hx Hl IH]; intros fg.
  - exists fg. split; reflexivity.
  - simpl. unfold published. rewrite Hx. simpl bind.
    destruct (IH (add_entry fg (entry_of x) prepend)) as [fg' [E1 E2]].
    exists fg'. split; [exact E1|].
    rewrite E2. simpl. now rewrite <- app_assoc.
Qed.

(** Each entry is put in front of the earlier ones, so the feed lists
    the sorted articles in reverse: oldest first. *)
Lemma generate_rss_feed_entries (articles : list Article) :
  Forall (fun a => aware (date a) = true) articles ->
  exists fg,
    generate_rss_feed articles = (Ok fg, [Log INFO FeedGenerated])
    /\ fg_entries fg = rev (map entry_of (sort_desc articles)).
Proof.
  intros Ha. unfold generate_rss_feed, sorted_by_date_reverse.
  assert (Hn : existsb (fun a => negb (aware (date a))) articles = false).
  { clear -Ha. induction Ha as [|x l Hx Hl IH]; simpl; [reflexivity|].
    now rewrite Hx, IH. }
  rewrite Hn, andb_false_r.
  destruct (add_entries_prepends (sort_desc articles) new_feed
              (sort_desc_aware _ Ha)) as [fg [E1 E2]].
  rewrite E1. exists fg. split; [reflexivity|].
  rewrite E2. simpl. apply app_nil_r.
Qed.

End FeedWriter.

(** C7. For the articles dated 2024-01-01, 2024-03-01, 2024-02-01 the
    writer sorts them newest first (03-01, 02-01, 01-01) and adds them in
    that order, but every entry is inserted in front of the previous
    ones: the generated feed lists 01-01, 02-01, 03-01. *)
Theorem generate_rss_feed_three_articles :
  map (fun a => ymd (date a)) (sort_desc three_articles)
    = [(2024, 3, 1); (2024, 2, 1); (2024, 1, 1)]%Z
  /\ exists fg,
       fst (generate_rss_feed three_articles) = Ok fg
       /\ map (fun e => ymd (fe_published e)) (fg_entries fg)
          = [(2024, 1, 1); (2024, 2, 1); (2024, 3, 1)]%Z.
Proof.
  split; [reflexivity|].
  eexists. split; [vm_compute; reflexivity|]. reflexivity.
Qed.

(** ** The entry point *)

Section Main.

Variable hash : string -> Z.
Variable find_all_a_href : string -> list Tag.

Local Open Scope list_scope.

Lemma parse_loop_quiet
      (tags : list Tag) (arts : list Article) (log : list event) :
  Forall quiet log -> Forall quiet (snd (parse_loop hash tags (arts, log))).
Proof.
  revert arts log. induction tags as [|a tags IH]; intros arts log Hl;
    [exact Hl|].
  simpl. destruct (loop_body hash a arts) as [[|art]|e]; apply IH;
    try assumption; apply Forall_app; split; try assumption;
    repeat constructor.
Qed.

Lemma parse_quiet (html : string) :
  Forall quiet (snd (parse_engineering_html hash find_all_a_href html)).
Proof.
  unfold parse_engineering_html.
  pose proof (parse_loop_quiet (find_all_a_href html) [] [] (Forall_nil _))
    as H.
  destruct (parse_loop hash (find_all_a_href html) ([], [])) as [arts log].
  simpl in *. apply Forall_app. split; [exact H|]. repeat constructor.
Qed.

Lemma parse_no_qualifying_anchor (html : string) :
  (forall a, In a (find_all_a_href html) ->
     exists href text,
       get_href a = Ok href /\ get_text a = Ok text
       /\ (Str.contains "/index/" href = false \/ String.length text < 20)) ->
  fst (parse_engineering_html hash find_all_a_href html) = [].
Proof.
  intros H. rewrite parse_articles.
  destruct (fst (parse_loop hash (find_all_a_href html) ([], [])))
    as [|art l] eqn:E; [reflexivity|].
  assert (Hin : In art (fst (parse_loop hash (find_all_a_href html) ([], []))))
    by (rewrite E; now left).
  apply parse_loop_provenance in Hin.
  destruct Hin as [[]|[a [arts [Ha Hb]]]].
  destruct (H a Ha) as [href [text [Hh [Ht Hf]]]].
  rewrite (loop_body_filtered hash a arts href text Hh Ht Hf) in Hb.
  discriminate.
Qed.

(** C8. When the page is fetched and the parser returns no article,
    [main] logs the warning and returns [False]; the run consists of the
    fetch, the parser's log lines and that warning, with no feed
    generated, no directory made and no file written.  A page without a
    qualifying anchor is such a case. *)
Theorem main_no_articles (env : Env) (html : string) :
  http_response env = Ok html ->
  fst (parse_engineering_html hash find_all_a_href html) = [] ->
  main hash find_all_a_href env
    = (false,
       [Log INFO FetchingPage;
        HttpGet "https://openai.com/news/engineering/";
        Log INFO FetchedPage]
       ++ snd (parse_engineering_html hash find_all_a_href html)
       ++ [Log WARNING NoArticlesParsed])
  /\ In (Log WARNING NoArticlesParsed) (snd (main hash find_all_a_href env))
  /\ Forall quiet (snd (main hash find_all_a_href env)).
Proof.
  intros Hr He.
  assert (Hm : main hash find_all_a_href env
               = (false,
                  [Log INFO FetchingPage;
                   HttpGet "https://openai.com/news/engineering/";
                   Log INFO FetchedPage]
                  ++ snd (parse_engineering_html hash find_all_a_href html)
                  ++ [Log WARNING NoArticlesParsed])).
  { unfold main, fetch_engineering_page. rewrite Hr.
    destruct (parse_engineering_html hash find_all_a_href html) as [arts t2].
    simpl in He. subst arts. reflexivity. }
  split; [exact Hm|]. rewrite Hm. unfold snd at 1 3. split.
  - apply in_or_app. right. apply in_or_app. right. now left.
  - apply Forall_app. split; [repeat constructor|].
    apply Forall_app. split; [apply parse_quiet|repeat constructor].
Qed.

End Main.

(** ** The matcher against a declarative reading of the patterns *)

Section Matcher.

Lemma star_sound p k g s x :
  Re.star p k g s = Some x ->
  exists w s', s = w ++ s' /\ all_chars p w = true /\ k g s' = Some x.
Proof.
  revert x. induction s as [|a s IH]; intros x H; simpl in H.
  - exists "", "". auto.
  - destruct (p a) eqn:Hp.
    + destruct (Re.star p k g s) as [y|] eqn:E.
      * injection H as <-. destruct (IH y eq_refl) as [w [s' [-> [Hw Hk]]]].
        exists (String a w), s'. simpl. rewrite Hp, Hw. auto.
      * exists "", (String a s). auto.
    + exists "", (String a s). auto.
Qed.

Lemma star_complete p k s' :
  (forall g, k g s' <> None) ->
  forall w g, all_chars p w = true -> Re.star p k g (w ++ s') <> None.
Proof.
  intros Hk. induction w as [|a w IH]; intros g Hw.
  - simpl. destruct s' as [|b t]; simpl; [apply Hk|].
    destruct (p b); [|apply Hk].
    destruct (Re.star p k g t); [discriminate|apply Hk].
  - simpl in Hw. apply andb_prop in Hw. destruct Hw as [Ha Hw].
    simpl. rewrite Ha.
    specialize (IH g Hw). destruct (Re.star p k g (w ++ s')); congruence.
Qed.

Lemma run_sound r : forall k g s x,
  Re.run r k g s = Some x ->
  exists w s' g', s = w ++ s' /\ matches r w s' /\ k g' s' = Some x.
Proof.
  induction r as [|p|r1 IH1 r2 IH2|r1 IH1 r2 IH2|p|p| |n r IH];
    intros k g s x H; simpl in H.
  - exists "", s, g. repeat split; [constructor|exact H].
  - destruct s as [|a s]; [discriminate|].
    destruct (p a) eqn:Hp; [|discriminate].
    exists (String a ""), s, g. repeat split; [now constructor|exact H].
  - apply IH1 in H. destruct H as [w1 [s1 [g1 [-> [M1 H]]]]].
    apply IH2 in H. destruct H as [w2 [s2 [g2 [-> [M2 H]]]]].
    exists (w1 ++ w2), s2, g2. rewrite append_assoc.
    repeat split; [now constructor|exact H].
  - destruct (Re.run r1 k g s) as [y|] eqn:E.
    + injection H as <-. apply IH1 in E.
      destruct E as [w [s' [g' [-> [M E]]]]].
      exists w, s', g'. repeat split; [now apply M_alt_l|exact E].
    + apply IH2 in H. destruct H as [w [s' [g' [-> [M H]]]]].
      exists w, s', g'. repeat split; [now apply M_alt_r|exact H].
  - apply star_sound in H. destruct H as [w [s' [-> [Hw H]]]].
    exists w, s', g. repeat split; [now constructor|exact H].
  - destruct s as [|a s]; [discriminate|].
    destruct (p a) eqn:Hp; [|discriminate].
    apply star_sound in H. destruct H as [w [s' [-> [Hw H]]]].
    exists (String a w), s', g. repeat split; [|exact H].
    constructor; [discriminate|]. simpl. now rewrite Hp, Hw.
  - destruct (Re.at_end s) eqn:E; [|discriminate].
    exists "", s, g. repeat split; [now constructor|exact H].
  - apply IH in H. destruct H as [w [s' [g' [-> [M H]]]]].
    eexists w, s', _. repeat split; [now constructor|exact H].
Qed.

Lemma run_complete r w s' :
  matches r w s' ->
  forall k, (forall g, k g s' <> None) ->
  forall g, Re.run r k g (w ++ s') <> None.
Proof.
  induction 1 as [rest|p c rest Hp|r1 r2 w1 w2 rest M1 IH1 M2 IH2
                 |r1 r2 w rest M IH|r1 r2 w rest M IH|p w rest Hw
                 |p w rest Hne Hw|rest He|n r w rest M IH];
    intros k Hk g; simpl.
  - apply Hk.
  - rewrite Hp. apply Hk.
  - rewrite append_assoc. apply IH1. intros g'. now apply IH2.
  - specialize (IH k Hk g).
    destruct (Re.run r1 k g (w ++ rest)); [discriminate|congruence].
  - destruct (Re.run r1 k g (w ++ rest)); [discriminate|now apply IH].
  - now apply star_complete.
  - destruct w as [|a w]; [congruence|]. simpl in Hw |- *.
    apply andb_prop in Hw. destruct Hw as [Ha Hw]. rewrite Ha.
    now apply star_complete.
  - rewrite He. apply Hk.
  - apply IH. intros g'. apply Hk.
Qed.

(** Without [$] a match does not depend on what follows it. *)
Lemma matches_context r w s1 s2 :
  no_eos r = true -> matches r w s1 -> matches r w s2.
Proof.
  intros Hn M. revert s2 Hn.
  induction M; intros s2 Hn; simpl in Hn;
    try (apply andb_prop in Hn; destruct Hn as [Hn1 Hn2]);
    try discriminate;
    try (now constructor).
  - constructor; auto.
  - apply M_alt_l; auto.
  - apply M_alt_r; auto.
  - constructor; auto.
Qed.

Lemma match_at_sound r s g w :
  Re.match_at r s = Some (g, w) ->
  exists s', s = w ++ s' /\ matches r w s'.
Proof.
  unfold Re.match_at. intros H.
  destruct (Re.run r Re.accept [] s) as [[g0 rest]|] eqn:E; [|discriminate].
  injection H as <- <-.
  apply run_sound in E. destruct E as [w [s' [g' [-> [M E]]]]].
  unfold Re.accept in E. injection E as -> ->.
  exists rest. rewrite length_append, Nat.add_sub, take_append. auto.
Qed.

Lemma match_at_complete r w s' :
  matches r w s' -> Re.match_at r (w ++ s') <> None.
Proof.
  intros M. unfold Re.match_at.
  pose proof (run_complete r w s' M Re.accept) as H.
  destruct (Re.run r Re.accept [] (w ++ s')) as [[g rest]|] eqn:E;
    [discriminate|].
  exfalso. apply (H (fun g => ltac:(discriminate)) [] E).
Qed.

End Matcher.

(** ** Search, substitution and stripping *)

Section TitleCleaning.

Lemma append_inj_length (a a' b b' : string) :
  a ++ b = a' ++ b' -> String.length a = String.length a' ->
  a = a' /\ b = b'.
Proof.
  revert a'. induction a as [|x a IH]; intros [|y a'] H L;
    simpl in *; try discriminate; [auto|].
  injection H as -> H. injection L as L.
  destruct (IH a' H L) as [-> ->]. auto.
Qed.

Lemma take_drop (n : nat) (s : string) : s = Str.take n s ++ Str.drop n s.
Proof.
  revert s. induction n as [|n IH]; intros [|c s]; simpl; try reflexivity.
  now rewrite <- IH.
Qed.

Lemma lstrip_suffix (s : string) : exists a, s = a ++ Str.lstrip s.
Proof.
  induction s as [|c s [a IH]]; simpl; [now exists ""|].
  destruct (Str.is_space c); [|now exists ""].
  exists (String c a). simpl. now rewrite <- IH.
Qed.

Lemma rstrip_prefix (s : string) : exists b, s = Str.rstrip s ++ b.
Proof.
  induction s as [|c s [b IH]]; simpl; [now exists ""|].
  destruct (Str.rstrip s) as [|x r].
  - destruct (Str.is_space c); [now exists (String c s)|].
    exists s. reflexivity.
  - exists b. simpl in *. now rewrite <- IH.
Qed.

Lemma strip_occurs (d s : string) :
  Str.occurs d (Str.strip s) -> Str.occurs d s.
Proof.
  intros [x [y H]]. unfold Str.strip in H.
  destruct (lstrip_suffix s) as [a Ha].
  destruct (rstrip_prefix (Str.lstrip s)) as [b Hb].
  exists (a ++ x), (y ++ b).
  rewrite Ha, Hb, H. now rewrite !append_assoc.
Qed.

Lemma search_from_leftmost r s : forall pos m,
  Re.search_from r pos s = Some m ->
  exists A B,
    s = A ++ B
    /\ Re.m_start m = pos + String.length A
    /\ Re.match_at r B = Some (Re.m_groups m, Re.m_group0 m)
    /\ forall A1 B1, s = A1 ++ B1 -> String.length A1 < String.length A ->
                     Re.match_at r B1 = None.
Proof.
  induction s as [|c s IH]; intros pos m H.
  - simpl in H. destruct (Re.match_at r "") as [[g w]|] eqn:E; [|discriminate].
    injection H as <-. exists "", "". simpl. rewrite Nat.add_0_r.
    repeat split; auto. intros ? ? _ L. inversion L.
  - simpl in H.
    destruct (Re.match_at r (String c s)) as [[g w]|] eqn:E.
    + injection H as <-. exists "", (String c s). simpl. rewrite Nat.add_0_r.
      repeat split; auto. intros ? ? _ L. inversion L.
    + apply IH in H. destruct H as [A [B [-> [Hs [Hm Hl]]]]].
      exists (String c A), B. simpl. repeat split; [lia|exact Hm|].
      intros [|x A1] B1 HE L; simpl in *.
      * now subst B1.
      * injection HE as -> HE. apply (Hl A1 B1 HE). lia.
Qed.

Lemma sub_from_skip_all r : forall s k,
  String.length s <= k -> Re.sub_from r k s = "".
Proof.
  induction s as [|c s IH]; intros k L; [reflexivity|].
  simpl in *. destruct k as [|k]; [lia|]. apply IH. lia.
Qed.

Lemma ends_with_newline_append (a b : string) :
  b <> "" -> ends_with_newline (a ++ b) = ends_with_newline b.
Proof.
  intros Hb. induction a as [|x a IH]; [reflexivity|].
  simpl. destruct (a ++ b) eqn:E; [|exact IH].
  destruct a; simpl in E; [congruence|discriminate].
Qed.

Lemma all_not_newline_end (s : string) :
  all_chars not_newline s = true -> ends_with_newline s = false.
Proof.
  induction s as [|c s IH]; [reflexivity|]. simpl. intros H.
  apply andb_prop in H. destruct H as [Hc Hs].
  destruct s; [|now apply IH].
  unfold not_newline in Hc. now destruct (Ascii.eqb c Str.newline).
Qed.

Lemma lit_matches (s rest : string) : matches (Re.lit s) s rest.
Proof.
  induction s as [|c s IH]; simpl; [constructor|].
  change (String c s) with (String c "" ++ s).
  constructor; [|exact IH]. constructor. apply Ascii.eqb_refl.
Qed.

(** A match of [Engineering(Jan|...|Dec).*$] in a text that does not
    end with a line feed runs to the end of the text. *)
Lemma engineering_match_to_end (s w : string) (g : Re.groups) :
  ends_with_newline s = false ->
  Re.match_at engineering_re s = Some (g, w) -> w = s.
Proof.
  intros Hn H. apply match_at_sound in H. destruct H as [s' [-> M]].
  unfold engineering_re, Re.seqs in M. simpl fold_right in M.
  inversion M as [| |? ? w1 x1 ? _ M1| | | | | |]; subst. clear M.
  inversion M1 as [| |? ? w2 x2 ? _ M2| | | | | |]; subst. clear M1.
  inversion M2 as [| |? ? w3 x3 ? _ M3| | | | | |]; subst. clear M2.
  inversion M3 as [| |? ? w4 x4 ? M4 M5| | | | | |]; subst. clear M3.
  inversion M5; subst. inversion M4 as [| | | | | | |? He|]; subst.
  simpl in He. simpl. rewrite !append_nil_r.
  destruct s' as [|c [|c' t]]; simpl in He; try discriminate.
  - now rewrite !append_nil_r.
  - exfalso.
    rewrite <- !append_assoc in Hn.
    rewrite ends_with_newline_append in Hn by discriminate.
    simpl in Hn. congruence.
Qed.

Lemma sub_cut (S : string) :
  S <> "" -> ends_with_newline S = false ->
  Re.match_at engineering_re S <> None ->
  forall T, exists j,
    j <= String.length T
    /\ Re.sub_empty engineering_re (T ++ S) = Str.take j T.
Proof.
  intros Hne Hnl Hm.
  assert (Hall : forall X g w, X <> "" -> ends_with_newline X = false ->
                   Re.match_at engineering_re X = Some (g, w) ->
                   Re.sub_empty engineering_re X = "").
  { intros X g w HX HnX HmX.
    pose proof (engineering_match_to_end X w g HnX HmX) as ->.
    destruct X as [|c X]; [congruence|].
    unfold Re.sub_empty. simpl Re.sub_from. rewrite HmX. simpl String.length.
    apply sub_from_skip_all. lia. }
  induction T as [|c T [j [Hj IH]]].
  - exists 0. split; [lia|]. simpl.
    destruct (Re.match_at engineering_re S) as [[g w]|] eqn:E; [|congruence].
    now apply (Hall S g w).
  - destruct (Re.match_at engineering_re (String c T ++ S)) as [[g w]|] eqn:E.
    + exists 0. split; [lia|]. simpl Str.take.
      apply (Hall _ g w); [discriminate| |exact E].
      change (String c T ++ S) with (String c "" ++ (T ++ S)).
      rewrite <- append_assoc.
      now rewrite ends_with_newline_append.
    + exists (Datatypes.S j). split; [simpl; lia|].
      unfold Re.sub_empty in *.
      change (String c T ++ S) with (String c (T ++ S)) in E |- *.
      simpl Re.sub_from. rewrite E. now rewrite IH.
Qed.

End TitleCleaning.

Section TitleClaim.

Variable hash : string -> Z.

Lemma date_match_shape (s w : string) (g : Re.groups) :
  Re.match_at date_re s = Some (g, w) ->
  exists rest mon tail,
    s = w ++ rest /\ matches date_re w rest
    /\ w = mon ++ tail /\ matches month_re mon "".
Proof.
  intros H. apply match_at_sound in H. destruct H as [rest [-> M]].
  exists rest.
  pose proof M as M0.
  unfold date_re, Re.seqs in M. simpl fold_right in M.
  inversion M as [| |? ? mon tail ? Hm _| | | | | |]; subst.
  exists mon, tail. repeat split; [exact M0|].
  apply (matches_context month_re mon (tail ++ rest)); [reflexivity|exact Hm].
Qed.

Lemma all_chars_append p (a b : string) :
  all_chars p (a ++ b) = all_chars p a && all_chars p b.
Proof.
  induction a as [|x a IH]; simpl; [reflexivity|].
  now rewrite IH, andb_assoc.
Qed.

(** The title computed from a text whose matched date directly follows
    the marker. *)
Lemma title_and_date_after_marker
        (href T R : string) (m : Re.match_obj) :
  Re.search date_re (T ++ "Engineering" ++ R) = Some m ->
  Re.m_start m = String.length T + 11 ->
  all_chars not_newline R = true ->
  exists t d j,
    title_and_date hash href (T ++ "Engineering" ++ R) = Ok (t, d)
    /\ j <= String.length T
    /\ t = Str.strip (Str.take j T)
    /\ ~ Str.occurs (Re.m_group0 m) t.
Proof.
  intros Hs Hpos Hnl.
  set (text := T ++ "Engineering" ++ R) in *.
  (* the match starts at R and is leftmost *)
  pose proof Hs as Hs'. unfold Re.search in Hs'.
  apply search_from_leftmost in Hs'.
  destruct Hs' as [A [B [HAB [Hst [Hm Hleft]]]]].
  assert (HA : A = T ++ "Engineering" /\ B = R).
  { apply append_inj_length.
    - rewrite <- HAB. unfold text. now rewrite append_assoc.
    - rewrite length_append. simpl. lia. }
  destruct HA as [-> ->].
  destruct (date_match_shape _ _ _ Hm) as [rest [mon [tail [HR [Md [Hw Mm]]]]]].
  (* the substitution cuts the text inside T *)
  assert (HRne : R <> "").
  { intros ->. vm_compute in Hm. discriminate. }
  assert (Hcut : exists j, j <= String.length T
                 /\ Re.sub_empty engineering_re text = Str.take j T).
  { apply sub_cut.
    - discriminate.
    - rewrite ends_with_newline_append by exact HRne.
      now apply all_not_newline_end.
    - rewrite HR, Hw.
      rewrite HR, Hw, !all_chars_append in Hnl.
      apply andb_prop in Hnl. destruct Hnl as [Hn1 Hn2].
      apply andb_prop in Hn1. destruct Hn1 as [_ Hn1].
      replace ("Engineering" ++ (mon ++ tail) ++ rest)
        with (("Engineering" ++ mon ++ (tail ++ rest) ++ "" ++ "") ++ "")
        by (now rewrite !append_nil_r, !append_assoc).
      apply match_at_complete.
      unfold engineering_re, Re.seqs, fold_right.
      apply M_seq; [apply lit_matches|].
      apply M_seq.
      { apply (matches_context month_re mon ""); [reflexivity|exact Mm]. }
      apply M_seq.
      { apply M_star. change (all_chars not_newline (tail ++ rest) = true).
        now rewrite all_chars_append, Hn1, Hn2. }
      apply M_seq; [apply M_eos; reflexivity | apply M_eps]. }
  destruct Hcut as [j [Hj Hsub]].
  destruct (title_and_date_cases hash href text) as [t [d [Htd [_ Hc]]]].
  assert (Ht : t = Str.strip (Str.take j T)).
  { rewrite <- Hsub.
    destruct Hc as [[? [? [_ [_ [_ H]]]]]|[[? [? [_ [_ [_ H]]]]]|[H _]]];
      [exact H|exact H|congruence]. }
  exists t, d, j. repeat split; try assumption.
  (* an occurrence in the title would be an earlier match *)
  intros Hocc. rewrite Ht in Hocc. apply strip_occurs in Hocc.
  destruct Hocc as [x [y Hxy]].
  assert (HT : T = x ++ Re.m_group0 m ++ (y ++ Str.drop j T)).
  { rewrite (take_drop j T) at 1. rewrite Hxy. now rewrite !append_assoc. }
  assert (Hnone : Re.match_at date_re
                    (Re.m_group0 m ++ (y ++ Str.drop j T) ++ "Engineering" ++ R)
                  = None).
  { apply (Hleft x).
    - unfold text. rewrite HT at 1. now rewrite !append_assoc.
    - rewrite HT at 1. rewrite !length_append. simpl. lia. }
  revert Hnone. apply match_at_complete.
  apply (matches_context date_re _ rest); [reflexivity|exact Md].
Qed.

(** C6 (amended). For an article produced from an anchor whose text has
    a matched date that immediately follows the literal "Engineering",
    with no line feed after that marker, the title is a stripped prefix of
    the text before the marker: marker and date are removed, and the
    matched date substring does not occur in the title. *)
Theorem title_drops_date_after_marker
        (a : Tag) (arts : list Article) (art : Article)
        (T R : string) (m : Re.match_obj) :
  get_text a = Ok (T ++ "Engineering" ++ R) ->
  loop_body hash a arts = Ok (Append art) ->
  Re.search date_re (T ++ "Engineering" ++ R) = Some m ->
  Re.m_start m = String.length T + 11 ->
  all_chars not_newline R = true ->
  (exists j, j <= String.length T /\ title art = Str.strip (Str.take j T))
  /\ ~ Str.occurs (Re.m_group0 m) (title art).
Proof.
  intros Ht Hb Hs Hpos Hnl.
  apply loop_body_append in Hb.
  destruct Hb as [href [text [t [d [_ [Ht' [_ [Htd [_ ->]]]]]]]]].
  assert (Hx : text = T ++ "Engineering" ++ R) by congruence. subst text.
  destruct (title_and_date_after_marker href T R m Hs Hpos Hnl)
    as [t' [d' [j [E [Hj [Hst Hocc]]]]]].
  rewrite Htd in E. injection E as <- <-. simpl.
  split; [now exists j | exact Hocc].
Qed.

End TitleClaim.

(** C6, as stated, fails: a text whose date is not preceded by the marker
    keeps the date in its title. *)
Lemma title_keeps_date_without_marker :
  let text := "Launch recap for Jan 5, 2024 in review" in
  exists m art,
    Re.search date_re text = Some m
    /\ Re.m_group0 m = "Jan 5, 2024"
    /\ fst (parse_engineering_html length_hash
              (fixed_document [anchor "/index/recap" text]) "") = [art]
    /\ title art = "Launch recap for Jan 5, 2024 in review"
    /\ Str.occurs (Re.m_group0 m) (title art).
Proof.
  simpl. eexists. eexists.
  split; [vm_compute; reflexivity|].
  split; [reflexivity|].
  split; [vm_compute; reflexivity|].
  split; [reflexivity|].
  exists "Launch recap for ", " in review". reflexivity.
Qed.

(** The line-feed condition is needed: [.*] stops at a line feed and [$]
    then fails, so the marker is not removed. *)
Example title_keeps_date_before_line_feed :
  let text :=
    "New Model ReleaseEngineeringJan 5, 2024"
    ++ String Str.newline "Read the full story" in
  option_map (fun m => (Re.m_start m, Re.m_group0 m)) (Re.search date_re text)
    = Some (28, "Jan 5, 2024")
  /\ option_map fst (result_value (title_and_date length_hash "/index/x" text))
     = Some text.
Proof. split; vm_compute; reflexivity. Qed.

(** ** The statements at sample inputs *)

Lemma parse_title_extraction_witness :
  fst (parse_engineering_html length_hash
         (fixed_document
            [anchor "/index/new-model"
                    "New Model ReleaseEngineeringJan 5, 2024"])
         "")
  = [sample_article].
Proof.
  apply (parse_title_extraction length_hash
           (fixed_document
              [anchor "/index/new-model"
                      "New Model ReleaseEngineeringJan 5, 2024"])
           "" "/index/new-model"); reflexivity.
Defined.

Lemma parse_links_unique_witness :
  NoDup (map link (fst (parse_engineering_html length_hash
                          (fixed_document sample_tags) "")))
  /\ In "https://openai.com/index/new-model"
        (map link (fst (parse_engineering_html length_hash
                          (fixed_document sample_tags) ""))).
Proof.
  destruct (parse_links_unique length_hash (fixed_document sample_tags) "")
    as [Hn [_ [_ [_ [Hin _]]]]].
  split; [exact Hn|].
  apply (Hin (anchor "/index/new-model"
                     "New Model ReleaseEngineeringJan 5, 2024")
             "/index/new-model"
             "New Model ReleaseEngineeringJan 5, 2024").
  - simpl. tauto.
  - reflexivity.
  - reflexivity.
  - reflexivity.
  - vm_compute. lia.
Defined.

Lemma parse_anchor_filter_witness :
  exists a href text,
    In a sample_tags
    /\ get_href a = Ok href /\ get_text a = Ok text
    /\ Str.contains "/index/" href = true
    /\ 20 <= String.length text
    /\ link sample_article = resolve_link href
    /\ title_and_date length_hash href text
       = Ok (title sample_article, date sample_article).
Proof.
  apply (proj1 (parse_anchor_filter length_hash (fixed_document sample_tags) "")
           sample_article).
  vm_compute. left. reflexivity.
Defined.

Lemma parse_link_and_date_witness :
  link sample_article <> ""%string
  /\ tzinfo (date sample_article) = Some UTC
  /\ valid_date (year (date sample_article)) (month (date sample_article))
                (day (date sample_article)) = true.
Proof.
  apply (parse_link_and_date length_hash (fixed_document sample_tags) "").
  vm_compute. left. reflexivity.
Defined.

Lemma main_no_articles_witness :
  fst (main length_hash (fixed_document unqualified_tags) (ok_env "<html/>"))
  = false.
Proof.
  rewrite (proj1 (main_no_articles length_hash (fixed_document unqualified_tags)
                    (ok_env "<html/>") "<html/>" eq_refl eq_refl)).
  reflexivity.
Defined.

Lemma parse_loop_skips_raising_anchor_witness :
  map link (fst (parse_loop length_hash
                   (sample_tags ++ broken_tag :: sample_tags) ([], [])))
  = ["https://openai.com/index/new-model";
     "https://openai.com/index/no-date"]%string.
Proof.
  pose proof (parse_loop_skips_raising_anchor length_hash
                sample_tags sample_tags
                broken_tag (OtherError "get_text failed") ([], [])) as H.
  destruct (parse_loop length_hash sample_tags ([], [])) as [arts log].
  rewrite (proj1 (proj2 (proj2 (proj2 (proj2 (proj2 (H eq_refl))))))).
  reflexivity.
Defined.

Lemma fallback_date_uses_raw_href_witness :
  exists a1 a2,
    fst (parse_loop length_hash
           [anchor "/index/x" "An article whose anchor has no date"] ([], []))
    = [a1]
    /\ fst (parse_loop length_hash
              [anchor "https://openai.com/index/x"
                      "An article whose anchor has no date"] ([], []))
       = [a2]
    /\ link a1 = link a2
    /\ date a1 <> date a2.
Proof.
  destruct (fallback_date_uses_raw_href length_hash
              "An article whose anchor has no date")
    as [_ [a1 [a2 [H1 [H2 [H3 [_ [_ H4]]]]]]]].
  - left. reflexivity.
  - vm_compute. lia.
  - exists a1, a2. repeat split; try assumption.
    apply H4. vm_compute. discriminate.
Defined.

Lemma title_drops_date_after_marker_witness :
  ~ Str.occurs "Jan 5, 2024" (title sample_article).
Proof.
  apply (title_drops_date_after_marker length_hash
           (anchor "/index/new-model" "New Model ReleaseEngineeringJan 5, 2024")
           [] sample_article "New Model Release" "Jan 5, 2024"
           {| Re.m_groups := [("3", "2024"); ("2", "5"); ("1", "Jan")];
              Re.m_group0 := "Jan 5, 2024"; Re.m_start := 28 |});
    reflexivity.
Defined.

(* ================================================================== *)
(** * Further properties *)

(** ** The feed writer, in general *)

Section FeedWriterMore.

Local Open Scope list_scope.

Lemma insert_desc_perm (x : Article) (l : list Article) :
  Permutation (insert_desc x l) (x :: l).
Proof.
  induction l as [|y l IH]; simpl; [reflexivity|].
  destruct (Datetime.ltb (date x) (date y)); [|reflexivity].
  rewrite IH. apply perm_swap.
Qed.

Lemma sort_desc_perm (l : list Article) : Permutation (sort_desc l) l.
Proof.
  induction l as [|x l IH]; simpl; [reflexivity|].
  rewrite insert_desc_perm. now constructor.
Qed.

Lemma lex_ltb_irrefl (a : list Z) : lex_ltb a a = false.
Proof.
  induction a as [|x a IH]; simpl; [reflexivity|].
  now rewrite Z.ltb_irrefl, Z.eqb_refl, IH.
Qed.

Lemma same_date_not_older (f : list Z) (x y : Article) :
  same_date f x = true -> same_date f y = true ->
  Datetime.ltb (date x) (date y) = false.
Proof.
  unfold same_date, Datetime.ltb. intros Hx Hy.
  destruct (list_eq_dec Z.eq_dec (fields (date x)) f); [|discriminate].
  destruct (list_eq_dec Z.eq_dec (fields (date y)) f); [|discriminate].
  rewrite e, e0. apply lex_ltb_irrefl.
Qed.

Lemma insert_desc_filter (f : list Z) (x : Article) (l : list Article) :
  filter (same_date f) (insert_desc x l) = filter (same_date f) (x :: l).
Proof.
  induction l as [|y l IH]; [reflexivity|].
  simpl insert_desc. destruct (Datetime.ltb (date x) (date y)) eqn:E;
    [|reflexivity].
  simpl filter in *. rewrite IH.
  destruct (same_date f x) eqn:Hx; [|reflexivity].
  destruct (same_date f y) eqn:Hy; [|reflexivity].
  rewrite (same_date_not_older f x y Hx Hy) in E. discriminate.
Qed.

(** X1. The sort made before insertion is a stable sort, newest first:
    its result is ordered by date descending, holds the same articles,
    and keeps articles of equal date in their original order. *)
Theorem sort_desc_stable (l : list Article) :
  Sorted not_older (sort_desc l)
  /\ Permutation (sort_desc l) l
  /\ forall f, filter (same_date f) (sort_desc l) = filter (same_date f) l.
Proof.
  split; [apply sort_desc_sorted|]. split; [apply sort_desc_perm|].
  intros f. induction l as [|x l IH]; [reflexivity|].
  simpl sort_desc. rewrite insert_desc_filter. simpl. now rewrite IH.
Qed.

Lemma sorted_snoc {A} (R : A -> A -> Prop) (l : list A) (x : A) :
  Sorted R l ->
  (forall pre z, l = pre ++ [z] -> R z x) ->
  Sorted R (l ++ [x]).
Proof.
  induction l as [|y l IH]; intros Hs Hl; simpl.
  - repeat constructor.
  - inversion Hs as [|? ? Hs' Hh]; subst. constructor.
    + apply IH; [exact Hs'|]. intros pre z ->. apply (Hl (y :: pre) z).
      reflexivity.
    + destruct l as [|z l]; simpl.
      * constructor. now apply (Hl [] y).
      * constructor. now inversion Hh.
Qed.

Lemma sorted_rev {A} (R : A -> A -> Prop) (l : list A) :
  Sorted R l -> Sorted (fun a b => R b a) (rev l).
Proof.
  induction l as [|x l IH]; intros Hs; simpl; [constructor|].
  inversion Hs as [|? ? Hs' Hh]; subst.
  apply sorted_snoc; [now apply IH|].
  intros pre z E.
  assert (El : l = z :: rev pre).
  { rewrite <- (rev_involutive l), E, rev_app_distr. reflexivity. }
  subst l. now inversion Hh.
Qed.

Lemma sorted_map {A B} (f : A -> B) (R : B -> B -> Prop) (l : list A) :
  Sorted (fun a b => R (f a) (f b)) l -> Sorted R (map f l).
Proof.
  induction 1 as [|x l Hs IH Hh]; simpl; constructor; [exact IH|].
  destruct Hh; simpl; now constructor.
Qed.

(** X2. For articles whose dates all carry a time zone the writer
    returns a feed with the fixed channel data and one entry per
    article: the entries are a rearrangement of the articles' entries,
    each with its link as id and its date as publication date, and they
    are listed oldest first, the reverse of the sorted order. *)
Theorem generate_rss_feed_content (articles : list Article) :
  Forall (fun a => aware (date a) = true) articles ->
  exists fg,
    generate_rss_feed articles = (Ok fg, [Log INFO FeedGenerated])
    /\ (fg_title fg, fg_description fg, fg_link fg, fg_language fg)
       = ("OpenAI Engineering News",
          "Latest engineering news and updates from OpenAI",
          "https://openai.com/news/engineering", "en")
    /\ fg_entries fg = rev (map entry_of (sort_desc articles))
    /\ Permutation (fg_entries fg) (map entry_of articles)
    /\ List.length (fg_entries fg) = List.length articles
    /\ Sorted not_newer (fg_entries fg)
    /\ (forall e, In e (fg_entries fg) ->
          exists a, In a articles
                    /\ fe_id e = link a /\ fe_link e = link a
                    /\ fe_title e = title a
                    /\ fe_description e = description a
                    /\ fe_category e = category a
                    /\ fe_published e = date a).
Proof.
  intros Ha. unfold generate_rss_feed, sorted_by_date_reverse.
  assert (Hn : existsb (fun a => negb (aware (date a))) articles = false).
  { clear -Ha. induction Ha as [|x l Hx Hl IH]; simpl; [reflexivity|].
    now rewrite Hx, IH. }
  rewrite Hn, andb_false_r.
  destruct (add_entries_prepends (sort_desc articles) new_feed
              (sort_desc_aware _ Ha)) as [fg [E1 E2]].
  rewrite E1. exists fg. split; [reflexivity|].
  simpl in E2. rewrite app_nil_r in E2.
  assert (Hp : Permutation (fg_entries fg) (map entry_of articles)).
  { rewrite E2, <- Permutation_rev. apply Permutation_map, sort_desc_perm. }
  split.
  { clear -E1. revert E1. generalize (sort_desc articles).
    assert (G : forall l g, add_entries g l = Ok fg ->
                  (fg_title fg, fg_description fg, fg_link fg, fg_language fg)
                  = (fg_title g, fg_description g, fg_link g, fg_language g)).
    { induction l as [|x l IH]; intros g H; simpl in H.
      - now injection H as ->.
      - unfold bind in H. destruct (published (date x)); [|discriminate].
        apply IH in H. exact H. }
    intros l H. apply (G l new_feed H). }
  split; [exact E2|]. split; [exact Hp|]. split.
  { rewrite (Permutation_length Hp). apply length_map. }
  split.
  { rewrite E2. apply (sorted_rev (fun x y => not_newer y x)).
    apply sorted_map. apply sort_desc_sorted. }
  intros e He. apply (Permutation_in _ Hp) in He.
  apply in_map_iff in He. destruct He as [a [<- Hin]].
  exists a. simpl. auto 10.
Qed.

Lemma add_entries_naive (l : list Article) (fg : FeedGenerator) :
  existsb (fun a => negb (aware (date a))) l = true ->
  exists e, add_entries fg l = Raise e.
Proof.
  revert fg. induction l as [|x l IH]; intros fg H; [discriminate|].
  simpl in *. unfold published, bind.
  destruct (aware (date x)); simpl in *.
  - apply IH, H.
  - eauto.
Qed.

Lemma existsb_perm {A} (p : A -> bool) (l l' : list A) :
  Permutation l l' -> existsb p l = existsb p l'.
Proof.
  induction 1; simpl; try congruence.
  - now rewrite !orb_assoc, (orb_comm (p y)).
Qed.

(** X3. The writer returns a feed exactly when every date carries a time
    zone: with a date without one it raises, either when that date is
    compared with an aware one or when it is published. *)
Theorem generate_rss_feed_ok_iff (articles : list Article) :
  (exists fg, fst (generate_rss_feed articles) = Ok fg)
  <-> Forall (fun a => aware (date a) = true) articles.
Proof.
  split.
  - intros [fg H]. unfold generate_rss_feed, sorted_by_date_reverse in H.
    destruct (existsb (fun a => negb (aware (date a))) articles) eqn:En.
    + exfalso.
      destruct (existsb (fun a => aware (date a)) articles); simpl in H;
        [discriminate|].
      destruct (add_entries_naive (sort_desc articles) new_feed) as [e E].
      { rewrite (existsb_perm _ _ _ (sort_desc_perm articles)). exact En. }
      rewrite E in H. discriminate.
    + apply Forall_forall. intros a Ha.
      destruct (aware (date a)) eqn:Ea; [reflexivity|].
      assert (existsb (fun a => negb (aware (date a))) articles = true).
      { apply existsb_exists. exists a. now rewrite Ea. }
      congruence.
  - intros Ha. destruct (generate_rss_feed_entries articles Ha) as [fg [E _]].
    exists fg. now rewrite E.
Qed.

End FeedWriterMore.

(** ** The entry point, in general *)

Section MainMore.

Variable hash : string -> Z.
Variable find_all_a_href : string -> list Tag.

Local Open Scope list_scope.

Lemma parse_articles_aware (html : string) :
  Forall (fun a => aware (date a) = true)
         (fst (parse_engineering_html hash find_all_a_href html)).
Proof.
  apply Forall_forall. intros art Hin. rewrite parse_articles in Hin.
  apply parse_loop_provenance in Hin.
  destruct Hin as [[]|[a [arts [Ha Hb]]]].
  apply loop_body_append in Hb.
  destruct Hb as [href [text [t [d [_ [_ [_ [Htd [_ ->]]]]]]]]].
  destruct (title_and_date_cases hash href text) as [t' [d' [E [[Hu _] _]]]].
  rewrite Htd in E. injection E as -> ->. simpl.
  unfold aware. now rewrite Hu.
Qed.

Lemma main_no_articles_trace (env : Env) (html : string) :
  http_response env = Ok html ->
  fst (parse_engineering_html hash find_all_a_href html) = [] ->
  main hash find_all_a_href env
  = (false,
     fetch_trace
     ++ snd (parse_engineering_html hash find_all_a_href html)
     ++ [Log WARNING NoArticlesParsed]).
Proof.
  intros Hr He. unfold main, fetch_engineering_page. rewrite Hr.
  destruct (parse_engineering_html hash find_all_a_href html) as [arts t2].
  simpl in He. subst arts. reflexivity.
Qed.

(** The run after a successful fetch that yields at least one article. *)
Lemma main_after_parse (env : Env) (html : string) :
  http_response env = Ok html ->
  fst (parse_engineering_html hash find_all_a_href html) <> [] ->
  exists fg,
    fg_entries fg
    = rev (map entry_of
             (sort_desc
                (fst (parse_engineering_html hash find_all_a_href html))))
    /\ main hash find_all_a_href env
       = match save_rss_feed env fg with
         | (Ok _, t4) =>
             (true,
              fetch_trace
              ++ snd (parse_engineering_html hash find_all_a_href html)
              ++ [Log INFO FeedGenerated] ++ t4)
         | (Raise e, t4) =>
             (false,
              (fetch_trace
               ++ snd (parse_engineering_html hash find_all_a_href html)
               ++ [Log INFO FeedGenerated] ++ t4)
              ++ [Log ERROR (FailedToGenerate e)])
         end.
Proof.
  intros Hr Hne.
  destruct (generate_rss_feed_entries _ (parse_articles_aware html))
    as [fg [Eg Ee]].
  exists fg. split; [exact Ee|].
  unfold main, fetch_engineering_page. rewrite Hr.
  destruct (parse_engineering_html hash find_all_a_href html) as [arts t2].
  simpl fst in *. simpl snd in *.
  destruct arts as [|a arts]; [congruence|].
  rewrite Eg. destruct (save_rss_feed env fg) as [[f|e] t4]; reflexivity.
Qed.

(** X4. [main] returns [True] only in a run where the page was fetched,
    the parser returned at least one article, [mkdir] returned and
    [rss_file] returned.  The feed writer never fails on what the parser
    returns: it gives the feed of the articles, sorted and prepended. *)
Theorem main_true_only_if (env : Env) :
  (fst (main hash find_all_a_href env) = true ->
   exists html,
     http_response env = Ok html
     /\ fst (parse_engineering_html hash find_all_a_href html) <> []
     /\ (exists u, mkdir_result env = Ok u)
     /\ (exists u, write_result env = Ok u))
  /\ (forall html, exists fg,
        generate_rss_feed
          (fst (parse_engineering_html hash find_all_a_href html))
        = (Ok fg, [Log INFO FeedGenerated])
        /\ fg_entries fg
           = rev (map entry_of
                    (sort_desc
                       (fst (parse_engineering_html
                               hash find_all_a_href html))))).
Proof.
  split.
  - intros H.
    destruct (http_response env) as [html|e] eqn:Hr.
    + destruct (fst (parse_engineering_html hash find_all_a_href html))
        as [|a l] eqn:Ep.
      * rewrite (main_no_articles_trace env html Hr Ep) in H. discriminate.
      * assert (Hne : fst (parse_engineering_html hash find_all_a_href html)
                      <> []) by (rewrite Ep; discriminate).
        destruct (main_after_parse env html Hr Hne) as [fg [_ E]].
        rewrite E in H. unfold save_rss_feed in H.
        exists html. split; [reflexivity|]. split; [exact Hne|].
        destruct (mkdir_result env) as [u|e1]; [|discriminate].
        destruct (write_result env) as [u'|e2]; [|discriminate].
        eauto.
    + unfold main, fetch_engineering_page in H. rewrite Hr in H. discriminate.
  - intros html.
    destruct (generate_rss_feed_entries _ (parse_articles_aware html))
      as [fg [Eg Ee]].
    exists fg. split; assumption.
Qed.

(** X5. A run in which [main] returns [True] is: the fetch, the parser's
    log, the generation line, then the directory, one write of
    "feeds/feed_openai_engineering.xml" holding the feed generated from
    the parsed articles, and the line that reports it. *)
Theorem main_success_trace (env : Env) :
  fst (main hash find_all_a_href env) = true ->
  exists html fg,
    http_response env = Ok html
    /\ generate_rss_feed
         (fst (parse_engineering_html hash find_all_a_href html))
       = (Ok fg, [Log INFO FeedGenerated])
    /\ main hash find_all_a_href env
       = (true,
          fetch_trace
          ++ snd (parse_engineering_html hash find_all_a_href html)
          ++ [Log INFO FeedGenerated;
              MkDir "feeds";
              WriteFile "feeds/feed_openai_engineering.xml" fg;
              Log INFO (FeedSaved "feeds/feed_openai_engineering.xml")]).
Proof.
  intros H.
  destruct (http_response env) as [html|e] eqn:Hr.
  - destruct (fst (parse_engineering_html hash find_all_a_href html))
      as [|a l] eqn:Ep.
    + rewrite (main_no_articles_trace env html Hr Ep) in H. discriminate.
    + destruct (generate_rss_feed_entries _ (parse_articles_aware html))
        as [fg [Eg _]].
      exists html, fg. split; [reflexivity|]. split; [exact Eg|].
      revert H. unfold main, fetch_engineering_page. rewrite Hr.
      destruct (parse_engineering_html hash find_all_a_href html)
        as [arts t2].
      simpl fst in *. simpl snd in *. subst arts.
      rewrite Eg. unfold save_rss_feed.
      destruct (mkdir_result env) as [u|e1]; [|discriminate].
      destruct (write_result env) as [u'|e2]; [|discriminate].
      reflexivity.
  - unfold main, fetch_engineering_page in H. rewrite Hr in H. discriminate.
Qed.

(** X7. When the request fails, the error is logged by the fetcher and
    again by [main], which returns [False]; nothing is parsed, generated
    or written. *)
Theorem main_fetch_error (env : Env) (e : exn) :
  http_response env = Raise e ->
  main hash find_all_a_href env
  = (false,
     [Log INFO FetchingPage;
      HttpGet "https://openai.com/news/engineering/";
      Log ERROR (ErrorFetching e);
      Log ERROR (FailedToGenerate e)]).
Proof.
  intros Hr. unfold main, fetch_engineering_page. now rewrite Hr.
Qed.

(** X8. When the directory cannot be made or the file cannot be written,
    [main] returns [False] after the feed was generated: the error is the
    last line of the log, and no line reports a saved feed. *)
Theorem main_filesystem_error (env : Env) (html : string) (e : exn) :
  http_response env = Ok html ->
  fst (parse_engineering_html hash find_all_a_href html) <> [] ->
  mkdir_result env = Raise e
  \/ ((exists u, mkdir_result env = Ok u) /\ write_result env = Raise e) ->
  exists made,
    main hash find_all_a_href env
    = (false,
       (fetch_trace
        ++ snd (parse_engineering_html hash find_all_a_href html)
        ++ [Log INFO FeedGenerated] ++ made)
       ++ [Log ERROR (FailedToGenerate e)])
    /\ (made = [] \/ made = [MkDir "feeds"]).
Proof.
  intros Hr Hne Hfs.
  destruct (main_after_parse env html Hr Hne) as [fg [_ E]].
  rewrite E. unfold save_rss_feed.
  destruct Hfs as [Hm|[[u Hm] Hw]].
  - rewrite Hm. exists []. auto.
  - rewrite Hm, Hw. exists [MkDir "feeds"]. auto.
Qed.

End MainMore.

(** ** The parser, in general *)

Section ParserMore.

Local Open Scope list_scope.

Lemma dedup_first_all_seen (b seen : list Article) :
  (forall c, In c b -> In (link c) (map link seen)) ->
  dedup_first seen b = seen.
Proof.
  induction b as [|c b IH]; intros H; [reflexivity|].
  simpl. rewrite (proj2 (seen_link_true seen c)) by (apply H; now left).
  apply IH. intros x Hx. apply H. now right.
Qed.





Variable hash : string -> Z.
Variable find_all_a_href : string -> list Tag.

(** X9. Anchors whose links have already been produced add nothing: if
    a document is another one followed by anchors that only repeat its
    links, both give the same articles.  In particular a document
    repeated twice gives the articles of one copy. *)
Theorem parse_repeated_anchors (html html' : string) (more : list Tag) :
  find_all_a_href html' = find_all_a_href html ++ more ->
  (forall c, In c (candidates hash more) ->
     In (link c) (map link (candidates hash (find_all_a_href html)))) ->
  fst (parse_engineering_html hash find_all_a_href html')
  = fst (parse_engineering_html hash find_all_a_href html).
Proof.
  intros Hdoc Hrep. rewrite !parse_articles, Hdoc, !parse_loop_dedup.
  unfold candidates. rewrite flat_map_app, dedup_first_app.
  apply dedup_first_all_seen. intros c Hc.
  destruct (proj1 (in_map_iff link _ _) (Hrep c Hc)) as [x [Hx Hin]].
  rewrite <- Hx. now apply dedup_first_covers.
Qed.


Lemma parse_loop_trace
      (tags : list Tag) (arts : list Article) (log : list event) :
  exists new,
    fst (parse_loop hash tags (arts, log)) = arts ++ new
    /\ found_lines (snd (parse_loop hash tags (arts, log)))
       = found_lines log ++ map (fun a => (title a, date a)) new
    /\ List.length (filter is_skip_warning
                      (snd (parse_loop hash tags (arts, log))))
       = List.length (filter is_skip_warning log)
         + List.length (filter raises tags).
Proof.
  revert arts log. induction tags as [|a tags IH]; intros arts log.
  - exists []. simpl. rewrite !app_nil_r. repeat split. lia.
  - simpl parse_loop. unfold parse_loop in *. simpl fold_left.
    destruct (loop_body hash a arts) as [[|art]|e] eqn:Hb.
    + destruct (IH arts log) as [new [H1 [H2 H3]]].
      exists new. repeat split; try assumption.
      rewrite H3. simpl.
      assert (Hr : raises a = false).
      { unfold raises. unfold loop_body, bind in Hb.
        destruct (get_href a); [|discriminate].
        destruct (get_text a); [reflexivity|discriminate]. }
      now rewrite Hr.
    + destruct (IH (arts ++ [art])
                   (log ++ [Log INFO (FoundArticle (title art) (date art))]))
        as [new [H1 [H2 H3]]].
      exists (art :: new). rewrite H1, H2, H3.
      unfold found_lines. rewrite flat_map_app, filter_app, length_app.
      simpl. rewrite <- !app_assoc.
      assert (Hr : raises a = false).
      { unfold raises. unfold loop_body, bind in Hb.
        destruct (get_href a); [|discriminate].
        destruct (get_text a); [reflexivity|discriminate]. }
      rewrite Hr. repeat split. lia.
    + destruct (IH arts (log ++ [Log WARNING (SkippingArticle e)]))
        as [new [H1 [H2 H3]]].
      exists new. rewrite H1, H2, H3.
      unfold found_lines. rewrite flat_map_app, filter_app, length_app.
      simpl. rewrite app_nil_r.
      assert (Hr : raises a = true).
      { apply loop_body_raise in Hb. unfold raises.
        destruct Hb as [Hb|[h [Hh Ht]]]; [now rewrite Hb|now rewrite Hh, Ht]. }
      rewrite Hr. simpl. repeat split. lia.
Qed.

(** X11. The parser's log tells what happened: one "Found article" line
    per returned article, in order, with its title and date; one warning
    per anchor on which a library call raised; and a last line with the
    number of articles returned. *)
Theorem parse_log_reports (html : string) :
  let '(articles, log) := parse_engineering_html hash find_all_a_href html in
  found_lines log = map (fun a => (title a, date a)) articles
  /\ List.length (filter is_skip_warning log)
     = List.length (filter raises (find_all_a_href html))
  /\ exists l, log = l ++ [Log INFO (ParsedArticles (List.length articles))].
Proof.
  unfold parse_engineering_html.
  destruct (parse_loop_trace (find_all_a_href html) [] [])
    as [new [H1 [H2 H3]]].
  destruct (parse_loop hash (find_all_a_href html) ([], [])) as [arts log].
  simpl in H1, H2, H3. subst arts.
  unfold found_lines in *. rewrite flat_map_app, filter_app, length_app.
  simpl. rewrite app_nil_r, Nat.add_0_r.
  split; [exact H2|]. split; [exact H3|]. now exists log.
Qed.

End ParserMore.

(** ** Titles, links and dates of the articles *)

Section ArticleFields.

Local Open Scope list_scope.

Lemma rstrip_idem (s : string) : Str.rstrip (Str.rstrip s) = Str.rstrip s.
Proof.
  induction s as [|c s IH]; [reflexivity|].
  simpl. destruct (Str.rstrip s) as [|x r] eqn:E.
  - destruct (Str.is_space c) eqn:Hc; [reflexivity|].
    simpl. now rewrite Hc.
  - simpl. simpl in IH. rewrite IH. reflexivity.
Qed.

Lemma lstrip_head (s : string) :
  match Str.lstrip s with
  | String c _ => Str.is_space c = false
  | EmptyString => True
  end.
Proof.
  induction s as [|c s IH]; simpl; [exact I|].
  destruct (Str.is_space c) eqn:E; [exact IH|exact E].
Qed.

Lemma rstrip_head (c : ascii) (s : string) :
  Str.is_space c = false ->
  exists r, Str.rstrip (String c s) = String c r.
Proof.
  intros Hc. simpl. destruct (Str.rstrip s); rewrite ?Hc; eauto.
Qed.

Lemma strip_idem (s : string) : Str.strip (Str.strip s) = Str.strip s.
Proof.
  unfold Str.strip. pose proof (lstrip_head s) as H.
  destruct (Str.lstrip s) as [|c u]; [reflexivity|].
  destruct (rstrip_head c u H) as [r E]. rewrite E.
  simpl Str.lstrip. rewrite H. rewrite <- E. apply rstrip_idem.
Qed.

Lemma contains_append_r (n p h : string) :
  Str.contains n h = true -> Str.contains n (p ++ h)%string = true.
Proof.
  intros H. induction p as [|c p IH]; [exact H|].
  simpl. rewrite IH. apply orb_true_r.
Qed.

Variable hash : string -> Z.

(** The pair computed for an anchor: the title depends on the text only,
    the date is the parsed one when there is one and the fallback for the
    href otherwise. *)
Lemma title_and_date_eq (href text : string) :
  title_and_date hash href text
  = (d <- match parsed_date text with
          | Some d => Ok d
          | None => stable_fallback_date hash href
          end ;;
     Ok (title_of text, d)).
Proof.
  unfold title_and_date, title_of, parsed_date.
  destruct (Re.search date_re text) as [m|]; [|reflexivity].
  destruct (strptime (Re.m_group0 m)); reflexivity.
Qed.

Variable find_all_a_href : string -> list Tag.

(** X12. Every returned article has the category "Engineering", a
    description equal to its title, a title that is the cleaned text of
    its anchor and has no white space at either end, and a link that
    contains "/index/" and does not start with "/". *)
Theorem parse_article_fields (html : string) (art : Article) :
  In art (fst (parse_engineering_html hash find_all_a_href html)) ->
  category art = "Engineering"%string
  /\ description art = title art
  /\ Str.strip (title art) = title art
  /\ Str.contains "/index/" (link art) = true
  /\ Str.startswith "/" (link art) = false
  /\ exists a href text,
       In a (find_all_a_href html)
       /\ get_href a = Ok href /\ get_text a = Ok text
       /\ title art = title_of text
       /\ (link art = href
           \/ link art = ("https://openai.com" ++ href)%string).
Proof.
  intros Hin. rewrite parse_articles in Hin.
  apply parse_loop_provenance in Hin.
  destruct Hin as [[]|[a [arts [Ha Hb]]]].
  apply loop_body_append in Hb.
  destruct Hb as [href [text [t [d [Hh [Ht [[Hc Hl] [Htd [_ ->]]]]]]]]].
  rewrite title_and_date_eq in Htd. unfold bind in Htd.
  assert (Et : t = title_of text).
  { destruct (parsed_date text); [now injection Htd as <- _|].
    destruct (stable_fallback_date hash href); [now injection Htd as <- _|].
    discriminate. }
  subst t. simpl. repeat split.
  - unfold title_of.
    destruct (Re.search date_re text); apply strip_idem.
  - unfold resolve_link. destruct (Str.startswith "/" href); [|exact Hc].
    now apply contains_append_r.
  - unfold resolve_link. destruct (Str.startswith "/" href) eqn:E;
      [reflexivity|exact E].
  - exists a, href, text. repeat split; try assumption.
    unfold resolve_link. destruct (Str.startswith "/" href); auto.
Qed.

End ArticleFields.

Section HashIndependence.

Local Open Scope list_scope.




Variable find_all_a_href : string -> list Tag.


(** X14. Two identifiers get the same fallback date exactly when their
    hashes agree modulo 730. *)
Theorem stable_fallback_date_collision (hash : string -> Z) (i1 i2 : string) :
  stable_fallback_date hash i1 = stable_fallback_date hash i2
  <-> (Z.abs (hash i1) mod 730 = Z.abs (hash i2) mod 730)%Z.
Proof.
  split.
  - intros H.
    destruct (stable_fallback_date_facts hash i1) as [d1 [E1 [O1 _]]].
    destruct (stable_fallback_date_facts hash i2) as [d2 [E2 [O2 _]]].
    rewrite E1, E2 in H. injection H as ->. lia.
  - intros H. unfold stable_fallback_date. now rewrite H.
Qed.

End HashIndependence.

(** ** The title, case by case *)

Section TitleMore.

Lemma startswith_append (p x : string) : Str.startswith p (p ++ x) = true.
Proof.
  induction p as [|c p IH]; simpl; [now destruct x|].
  now rewrite Ascii.eqb_refl, IH.
Qed.

Lemma lit_matches_inv (p w rest : string) :
  matches (Re.lit p) w rest -> w = p.
Proof.
  revert w rest. induction p as [|c p IH]; intros w rest M; simpl in M.
  - now inversion M.
  - inversion M as [| |? ? w1 w2 ? M1 M2| | | | | |]; subst.
    inversion M1 as [|? a ? Ha| | | | | | |]; subst.
    apply Ascii.eqb_eq in Ha. subst a. simpl. f_equal. now apply (IH w2 rest).
Qed.

(** What a match of [Engineering(Jan|...|Dec).*$] looks like. *)
Lemma engineering_match_shape (s w : string) (g : Re.groups) :
  Re.match_at engineering_re s = Some (g, w) ->
  exists tail rest,
    w = "Engineering" ++ tail /\ s = w ++ rest /\ Re.at_end rest = true.
Proof.
  intros H. apply match_at_sound in H. destruct H as [rest [-> M]].
  unfold engineering_re, Re.seqs in M. simpl fold_right in M.
  inversion M as [| |? ? w1 x1 ? Ml M1| | | | | |]; subst. clear M.
  apply (lit_matches_inv "Engineering") in Ml. subst w1.
  inversion M1 as [| |? ? w2 x2 ? _ M2| | | | | |]; subst. clear M1.
  inversion M2 as [| |? ? w3 x3 ? _ M3| | | | | |]; subst. clear M2.
  inversion M3 as [| |? ? w4 x4 ? M4 M5| | | | | |]; subst. clear M3.
  inversion M5; subst. inversion M4 as [| | | | | | |? He|]; subst.
  exists (w2 ++ w3 ++ "" ++ ""), rest. repeat split. exact He.
Qed.

Lemma engineering_match_startswith (s : string) :
  Re.match_at engineering_re s <> None ->
  Str.startswith "Engineering" s = true.
Proof.
  destruct (Re.match_at engineering_re s) as [[g w]|] eqn:E; [|congruence].
  intros _. apply engineering_match_shape in E.
  destruct E as [tail [rest [-> [-> _]]]].
  rewrite append_assoc. apply startswith_append.
Qed.

Lemma contains_cons_false (n : string) (c : ascii) (s : string) :
  Str.contains n (String c s) = false ->
  Str.startswith n (String c s) = false /\ Str.contains n s = false.
Proof. simpl. intros H. now apply orb_false_iff in H. Qed.

(** An occurrence of the marker cannot begin in a text that does not
    start with it and run into a marker that follows. *)
Lemma marker_straddle (T X : string) :
  T <> "" ->
  Str.startswith "Engineering" T = false ->
  Str.startswith "Engineering" (T ++ "Engineering" ++ X) = false.
Proof.
  intros Hne H.
  destruct T
    as [|c1 [|c2 [|c3 [|c4 [|c5 [|c6 [|c7 [|c8 [|c9 [|c10 [|c11 T]]]]]]]]]]];
    [congruence|..]; simpl in *;
    repeat rewrite ?andb_false_r, ?andb_false_l; try reflexivity; exact H.
Qed.

Lemma remove_from_cons (old : string) (c : ascii) (s : string) :
  Str.remove_from old 0 (String c s)
  = if Str.startswith old (String c s)
    then Str.remove_from old (Nat.pred (String.length old)) s
    else String c (Str.remove_from old 0 s).
Proof. reflexivity. Qed.

Lemma sub_from_cons (r : Re.re) (c : ascii) (s : string) :
  Re.sub_from r 0 (String c s)
  = match Re.match_at r (String c s) with
    | Some (_, w) =>
        match String.length w with
        | S k => Re.sub_from r k s
        | O => String c (Re.sub_from r 0 s)
        end
    | None => String c (Re.sub_from r 0 s)
    end.
Proof. reflexivity. Qed.

Lemma remove_marker_absent (s : string) :
  Str.contains "Engineering" s = false -> Str.remove "Engineering" s = s.
Proof.
  unfold Str.remove. induction s as [|c s IH]; intros H; [reflexivity|].
  apply contains_cons_false in H. destruct H as [H1 H2].
  rewrite remove_from_cons, H1. now rewrite IH.
Qed.

Lemma sub_marker_absent (s : string) :
  Str.contains "Engineering" s = false ->
  Re.sub_empty engineering_re s = s.
Proof.
  unfold Re.sub_empty. induction s as [|c s IH]; intros H; [reflexivity|].
  apply contains_cons_false in H. destruct H as [H1 H2].
  rewrite sub_from_cons.
  destruct (Re.match_at engineering_re (String c s)) as [[g w]|] eqn:E.
  - assert (Hs : Str.startswith "Engineering" (String c s) = true).
    { apply engineering_match_startswith. congruence. }
    congruence.
  - now rewrite IH.
Qed.

(** X15. When the anchor text does not contain "Engineering", the title
    is the text itself, stripped, whether a date was found or not. *)
Theorem title_without_marker (text : string) :
  Str.contains "Engineering" text = false ->
  title_of text = Str.strip text.
Proof.
  intros H. unfold title_of.
  destruct (Re.search date_re text);
    [now rewrite sub_marker_absent | now rewrite remove_marker_absent].
Qed.

Lemma remove_before_marker (T U : string) :
  Str.contains "Engineering" T = false ->
  Str.remove "Engineering" (T ++ "Engineering" ++ U)
  = T ++ Str.remove "Engineering" U.
Proof.
  unfold Str.remove. induction T as [|c T IH]; intros H; [reflexivity|].
  apply contains_cons_false in H. destruct H as [H1 H2].
  change ((String c T ++ "Engineering" ++ U))
    with (String c (T ++ "Engineering" ++ U)).
  rewrite remove_from_cons.
  change (String c (T ++ "Engineering" ++ U))
    with (String c T ++ "Engineering" ++ U).
  rewrite marker_straddle by (discriminate || exact H1).
  change (String c T ++ "Engineering" ++ U)
    with (String c (T ++ "Engineering" ++ U)).
  change (String c T ++ Str.remove_from "Engineering" 0 U)
    with (String c (T ++ Str.remove_from "Engineering" 0 U)).
  now rewrite IH.
Qed.

(** X16. When no date is found, the marker "Engineering" is taken out
    wherever it stands: for a text with one occurrence the title is what
    stands before and after it, joined and stripped. *)
Theorem title_no_date_removes_marker (T U : string) :
  Re.search date_re (T ++ "Engineering" ++ U) = None ->
  Str.contains "Engineering" T = false ->
  Str.contains "Engineering" U = false ->
  title_of (T ++ "Engineering" ++ U) = Str.strip (T ++ U).
Proof.
  intros Hs HT HU. unfold title_of. rewrite Hs.
  now rewrite remove_before_marker, remove_marker_absent.
Qed.

End TitleMore.

Section TitleWithDate.

Lemma sub_from_skip (r : Re.re) (w rest : string) :
  Re.sub_from r (String.length w) (w ++ rest) = Re.sub_from r 0 rest.
Proof.
  induction w as [|c w IH]; [now destruct rest|]. simpl. exact IH.
Qed.

Lemma sub_at_end (rest : string) :
  Re.at_end rest = true -> Re.sub_empty engineering_re rest = rest.
Proof.
  destruct rest as [|c [|c' t]]; simpl; try discriminate; [reflexivity|].
  intros H. apply Ascii.eqb_eq in H. subst c. vm_compute. reflexivity.
Qed.

Lemma rstrip_append_newline (y : string) :
  Str.rstrip (y ++ String Str.newline "") = Str.rstrip y.
Proof.
  induction y as [|c y IH]; [reflexivity|].
  simpl. rewrite IH. reflexivity.
Qed.

Lemma strip_append_at_end (x r : string) :
  Re.at_end r = true -> Str.strip (x ++ r) = Str.strip x.
Proof.
  intros H. destruct r as [|c [|c' t]]; simpl in H; try discriminate.
  - now rewrite append_nil_r.
  - apply Ascii.eqb_eq in H. subst c. unfold Str.strip.
    induction x as [|c x IH]; [reflexivity|].
    simpl Str.lstrip. destruct (Str.is_space c); [exact IH|].
    apply (rstrip_append_newline (String c x)).
Qed.

(** The substitution keeps a prefix of the text, followed by a final
    line feed when the match stopped before one. *)
Lemma sub_keeps_prefix (s : string) :
  exists j r,
    j <= String.length s
    /\ Re.at_end r = true
    /\ Re.sub_empty engineering_re s = Str.take j s ++ r
    /\ (j = String.length s
        \/ Str.startswith "Engineering" (Str.drop j s) = true).
Proof.
  unfold Re.sub_empty. induction s as [|c s [j [r [Hj [Hr [IH Hm]]]]]].
  - exists 0, "". repeat split; auto.
  - rewrite sub_from_cons.
    destruct (Re.match_at engineering_re (String c s)) as [[g w]|] eqn:E.
    + pose proof (engineering_match_startswith (String c s)) as Hs.
      rewrite E in Hs. specialize (Hs ltac:(discriminate)).
      apply engineering_match_shape in E.
      destruct E as [tail [rest [Hw [Hsw Hend]]]].
      exists 0, rest. split; [simpl; lia|]. split; [exact Hend|].
      split; [|right; exact Hs].
      rewrite Hw in Hsw |- *.
      assert (Hs' : s = ("ngineering" ++ tail) ++ rest).
      { simpl in Hsw. now injection Hsw as _ ->. }
      change (String.length ("Engineering" ++ tail))
        with (S (String.length ("ngineering" ++ tail))).
      cbv iota. rewrite Hs'.
      rewrite (sub_from_skip engineering_re ("ngineering" ++ tail) rest).
      exact (sub_at_end rest Hend).
    + exists (S j), r. split; [simpl; lia|]. split; [exact Hr|].
      split; [simpl; now rewrite IH|].
      destruct Hm as [->|Hm]; [now left|right; exact Hm].
Qed.

(** X17. Whenever a date is found in the anchor text, the title is a
    prefix of the text, stripped: the whole text, or the text up to an
    occurrence of "Engineering". *)
Theorem title_with_date_is_prefix (text : string) :
  Re.search date_re text <> None ->
  exists j,
    j <= String.length text
    /\ title_of text = Str.strip (Str.take j text)
    /\ (j = String.length text
        \/ Str.startswith "Engineering" (Str.drop j text) = true).
Proof.
  intros Hs. unfold title_of.
  destruct (Re.search date_re text); [|congruence].
  destruct (sub_keeps_prefix text) as [j [r [Hj [Hr [E Hm]]]]].
  exists j. split; [exact Hj|]. split; [|exact Hm].
  rewrite E. now apply strip_append_at_end.
Qed.

Lemma sub_before_marker (T X : string) :
  Str.contains "Engineering" T = false ->
  Re.sub_empty engineering_re (T ++ "Engineering" ++ X)
  = T ++ Re.sub_empty engineering_re ("Engineering" ++ X).
Proof.
  unfold Re.sub_empty. induction T as [|c T IH]; intros H; [reflexivity|].
  apply contains_cons_false in H. destruct H as [H1 H2].
  change (String c T ++ "Engineering" ++ X)
    with (String c (T ++ "Engineering" ++ X)).
  rewrite sub_from_cons.
  destruct (Re.match_at engineering_re (String c (T ++ "Engineering" ++ X)))
    as [[g w]|] eqn:E.
  - assert (Hs : Str.startswith "Engineering"
                   (String c T ++ "Engineering" ++ X) = true).
    { apply engineering_match_startswith.
      change (String c T ++ "Engineering" ++ X)
        with (String c (T ++ "Engineering" ++ X)).
      congruence. }
    rewrite marker_straddle in Hs by (discriminate || exact H1).
    discriminate.
  - rewrite IH by exact H2. reflexivity.
Qed.

(** The marker followed by the matched date is a match of the title
    pattern. *)
Lemma marker_matches (T R : string) (m : Re.match_obj) :
  Re.search date_re (T ++ "Engineering" ++ R) = Some m ->
  Re.m_start m = String.length T + 11 ->
  all_chars not_newline R = true ->
  R <> "" /\ Re.match_at engineering_re ("Engineering" ++ R) <> None.
Proof.
  intros Hs Hpos Hnl.
  unfold Re.search in Hs. apply search_from_leftmost in Hs.
  destruct Hs as [A [B [HAB [Hst [Hm _]]]]].
  assert (HA : A = T ++ "Engineering" /\ B = R).
  { apply append_inj_length.
    - rewrite <- HAB. now rewrite append_assoc.
    - rewrite length_append. simpl. lia. }
  destruct HA as [-> ->].
  destruct (date_match_shape _ _ _ Hm) as [rest [mon [tail [HR [_ [Hw Mm]]]]]].
  split.
  { intros ->. vm_compute in Hm. discriminate. }
  rewrite HR, Hw.
  rewrite HR, Hw, !all_chars_append in Hnl.
  apply andb_prop in Hnl. destruct Hnl as [Hn1 Hn2].
  apply andb_prop in Hn1. destruct Hn1 as [_ Hn1].
  replace ("Engineering" ++ (mon ++ tail) ++ rest)
    with (("Engineering" ++ mon ++ (tail ++ rest) ++ "" ++ "") ++ "")
    by (now rewrite !append_nil_r, !append_assoc).
  apply match_at_complete.
  unfold engineering_re, Re.seqs, fold_right.
  apply M_seq; [apply lit_matches|].
  apply M_seq.
  { apply (matches_context month_re mon ""); [reflexivity|exact Mm]. }
  apply M_seq.
  { apply M_star. change (all_chars not_newline (tail ++ rest) = true).
    now rewrite all_chars_append, Hn1, Hn2. }
  apply M_seq; [apply M_eos; reflexivity | apply M_eps].
Qed.

Lemma title_of_usual_shape (T R : string) (m : Re.match_obj) :
  Re.search date_re (T ++ "Engineering" ++ R) = Some m ->
  Re.m_start m = String.length T + 11 ->
  all_chars not_newline R = true ->
  Str.contains "Engineering" T = false ->
  title_of (T ++ "Engineering" ++ R) = Str.strip T.
Proof.
  intros Hs Hpos Hnl HT.
  destruct (marker_matches T R m Hs Hpos Hnl) as [HR Hm].
  unfold title_of. rewrite Hs, sub_before_marker by exact HT.
  destruct (sub_cut ("Engineering" ++ R)) with (T := "") as [j [Hj E]].
  - discriminate.
  - rewrite ends_with_newline_append by exact HR.
    now apply all_not_newline_end.
  - exact Hm.
  - change ("" ++ "Engineering" ++ R) with ("Engineering" ++ R) in E.
    rewrite E. destruct j; simpl Str.take; now rewrite append_nil_r.
Qed.

(** X18. The usual shape: when the matched date immediately follows the
    marker "Engineering", no line feed follows the marker and the text
    before it does not contain "Engineering", the title is exactly the
    text before the marker, stripped. *)
Theorem title_usual_shape (T R : string) (m : Re.match_obj) :
  Re.search date_re (T ++ "Engineering" ++ R) = Some m ->
  Re.m_start m = String.length T + 11 ->
  all_chars not_newline R = true ->
  Str.contains "Engineering" T = false ->
  title_of (T ++ "Engineering" ++ R) = Str.strip T.
Proof.
  intros Hs Hpos Hnl HT.
  destruct (marker_matches T R m Hs Hpos Hnl) as [HR Hm].
  unfold title_of. rewrite Hs, sub_before_marker by exact HT.
  destruct (sub_cut ("Engineering" ++ R)) with (T := "") as [j [Hj E]].
  - discriminate.
  - rewrite ends_with_newline_append by exact HR.
    now apply all_not_newline_end.
  - exact Hm.
  - change ("" ++ "Engineering" ++ R) with ("Engineering" ++ R) in E.
    rewrite E. destruct j; simpl Str.take; now rewrite append_nil_r.
Qed.

Lemma date_has_digit (w rest : string) :
  matches date_re w rest -> all_chars not_digit w = false.
Proof.
  intros M. unfold date_re, Re.seqs in M. simpl fold_right in M.
  inversion M as [| |? ? w1 x1 ? _ M1| | | | | |]; subst. clear M.
  inversion M1 as [| |? ? w2 x2 ? _ M2| | | | | |]; subst. clear M1.
  inversion M2 as [| |? ? w3 x3 ? M3 _| | | | | |]; subst. clear M2.
  inversion M3 as [| | | | | | | |? ? ? ? M4]; subst. clear M3.
  unfold Re.digit_1_2 in M4.
  inversion M4 as [| |? ? w4 x4 ? M5 _| | | | | |]; subst. clear M4.
  inversion M5 as [|? c ? Hc| | | | | | |]; subst.
  rewrite !all_chars_append. simpl. unfold not_digit at 3. rewrite Hc.
  simpl. now rewrite !andb_false_r.
Qed.

(** X19. An anchor text without any decimal digit has no date: the
    search finds nothing and the article gets the fallback date of its
    href. *)
Theorem no_digit_falls_back (hash : string -> Z) (href text : string) :
  all_chars not_digit text = true ->
  Re.search date_re text = None
  /\ exists d,
       title_and_date hash href text
       = Ok (Str.strip (Str.remove "Engineering" text), d)
       /\ stable_fallback_date hash href = Ok d.
Proof.
  intros Hd.
  assert (Hs : Re.search date_re text = None).
  { destruct (Re.search date_re text) as [m|] eqn:E; [|reflexivity].
    exfalso. unfold Re.search in E. apply search_from_leftmost in E.
    destruct E as [A [B [-> [_ [Hm _]]]]].
    apply match_at_sound in Hm. destruct Hm as [rest [-> M]].
    apply date_has_digit in M.
    rewrite !all_chars_append, M in Hd.
    rewrite andb_false_l, andb_false_r in Hd. discriminate. }
  split; [exact Hs|].
  destruct (stable_fallback_date_facts hash href) as [d [E _]].
  exists d. split; [|exact E].
  unfold title_and_date. rewrite Hs, E. reflexivity.
Qed.

End TitleWithDate.

(** ** Dates in the usual shape *)

Section UsualDate.

Lemma consumes_seq r1 r2 w1 w2 rest f1 f2 :
  consumes r1 w1 (w2 ++ rest) f1 -> consumes r2 w2 rest f2 ->
  consumes (Re.Seq r1 r2) (w1 ++ w2) rest (fun g => f2 (f1 g)).
Proof.
  intros H1 H2 k g x H. simpl. rewrite append_assoc.
  apply H1. apply H2. exact H.
Qed.

Lemma consumes_grp n r w rest f :
  consumes r w rest f ->
  consumes (Re.Grp n r) w rest (fun g => (n, w) :: f g).
Proof.
  intros Hr k g x H. simpl. apply Hr.
  now rewrite length_append, Nat.add_sub, take_append.
Qed.

Lemma consumes_eps rest : consumes Re.Eps "" rest (fun g => g).
Proof. intros k g x H. exact H. Qed.

Lemma consumes_lit p rest : consumes (Re.lit p) p rest (fun g => g).
Proof.
  induction p as [|c p IH]; intros k g x H; simpl; [exact H|].
  rewrite Ascii.eqb_refl. now apply IH.
Qed.

Lemma digit_not_space (c : ascii) :
  Str.is_digit c = true -> Str.is_space c = false.
Proof.
  unfold Str.is_digit, Str.is_space. intros H.
  apply andb_prop in H. destruct H as [H1 H2].
  apply N.leb_le in H1, H2.
  replace (N_of_ascii c <=? 13)%N with false by (symmetry; apply N.leb_gt; lia).
  replace (N_of_ascii c <=? 32)%N with false by (symmetry; apply N.leb_gt; lia).
  replace (N_of_ascii c =? 133)%N with false
    by (symmetry; apply N.eqb_neq; lia).
  replace (N_of_ascii c =? 160)%N with false
    by (symmetry; apply N.eqb_neq; lia).
  now rewrite !andb_false_r.
Qed.

Lemma digit_not_newline (c : ascii) :
  Str.is_digit c = true -> not_newline c = true.
Proof.
  intros H. unfold not_newline. destruct (Ascii.eqb c Str.newline) eqn:E;
    [|reflexivity].
  apply Ascii.eqb_eq in E. subst c. discriminate.
Qed.

Lemma consumes_space (c : ascii) (r : string) :
  Str.is_space c = false ->
  consumes Re.spaces " " (String c r) (fun g => g).
Proof.
  intros Hc k g x H. simpl. now rewrite Hc.
Qed.

Lemma consumes_digit_4 (a b c d : ascii) (rest : string) :
  Str.is_digit a = true -> Str.is_digit b = true ->
  Str.is_digit c = true -> Str.is_digit d = true ->
  consumes Re.digit_4 (String a (String b (String c (String d "")))) rest
           (fun g => g).
Proof.
  intros Ha Hb Hc Hd k g x H. simpl. now rewrite Ha, Hb, Hc, Hd.
Qed.

Lemma consumes_digit_1 (a : ascii) (rest : string) :
  Str.is_digit a = true ->
  consumes Re.digit_1_2 (String a "") (String "," rest) (fun g => g).
Proof.
  intros Ha k g x H. simpl. now rewrite Ha.
Qed.

Lemma consumes_digit_2 (a b : ascii) (rest : string) :
  Str.is_digit a = true -> Str.is_digit b = true ->
  consumes Re.digit_1_2 (String a (String b "")) rest (fun g => g).
Proof.
  intros Ha Hb k g x H. simpl. now rewrite Ha, Hb, H.
Qed.

Lemma digit_char_digit (n : Z) :
  (0 <= n <= 9)%Z ->
  Str.is_digit (digit_char n) = true /\ Str.digit_val (digit_char n) = n.
Proof.
  intros H.
  assert (E : In n (map Z.of_nat (seq 0 10))).
  { apply in_map_iff. exists (Z.to_nat n). split; [lia|]. apply in_seq. lia. }
  simpl in E.
  repeat (destruct E as [<-|E]; [split; reflexivity|]). destruct E.
Qed.

Lemma year_string_digits (y : Z) :
  (0 <= y <= 9999)%Z ->
  exists a b c d,
    year_string y = String a (String b (String c (String d "")))
    /\ Str.is_digit a = true /\ Str.is_digit b = true
    /\ Str.is_digit c = true /\ Str.is_digit d = true.
Proof.
  intros H. unfold year_string. do 4 eexists. split; [reflexivity|].
  repeat split; apply digit_char_digit.
  - split; [apply Z.div_pos; lia|]. apply Z.lt_succ_r.
    apply Z.div_lt_upper_bound; lia.
  - pose proof (Z.mod_pos_bound (y / 100) 10). lia.
  - pose proof (Z.mod_pos_bound (y / 10) 10). lia.
  - pose proof (Z.mod_pos_bound y 10). lia.
Qed.

Lemma consumes_dated (rm rd ry : Re.re) (M D Y rest : string)
      (a y1 : ascii) (tailD tailY : string) fm fd fy :
  D = String a tailD -> Str.is_space a = false ->
  Y = String y1 tailY -> Str.is_space y1 = false ->
  (forall r, consumes rm M r fm) ->
  (forall r, consumes rd D (String "," r) fd) ->
  (forall r, consumes ry Y r fy) ->
  consumes (Re.seqs [rm; Re.spaces; rd; Re.lit ","; Re.spaces; ry])
           (M ++ " " ++ D ++ ", " ++ Y) rest
           (fun g => fy (fd (fm g))).
Proof.
  intros HD Ha HY Hy Hm Hd Hyr k g x H.
  unfold Re.seqs, fold_right. cbn [Re.run].
  rewrite append_assoc. apply Hm.
  change ((" " ++ D ++ ", " ++ Y) ++ rest)
    with (" " ++ ((D ++ ", " ++ Y) ++ rest)).
  rewrite HD at 1.
  change ((String a tailD ++ ", " ++ Y) ++ rest)
    with (String a ((tailD ++ ", " ++ Y) ++ rest)).
  apply (consumes_space a _ Ha).
  change (String a ((tailD ++ ", " ++ Y) ++ rest))
    with ((String a tailD ++ ", " ++ Y) ++ rest).
  rewrite <- HD. rewrite append_assoc.
  change ((", " ++ Y) ++ rest) with (String "," (" " ++ Y ++ rest)).
  apply Hd.
  change (String "," (" " ++ Y ++ rest)) with ("," ++ (" " ++ Y ++ rest)).
  apply (consumes_lit ",").
  rewrite HY at 1.
  change (" " ++ String y1 tailY ++ rest)
    with (" " ++ String y1 (tailY ++ rest)).
  apply (consumes_space y1 _ Hy).
  change (String y1 (tailY ++ rest)) with (String y1 tailY ++ rest).
  rewrite <- HY. apply Hyr. exact H.
Qed.

Lemma month_index_cases (i : Z) :
  (1 <= i <= 12)%Z -> In i (map Z.of_nat (seq 1 12)).
Proof.
  intros H. apply in_map_iff. exists (Z.to_nat i). split; [lia|].
  apply in_seq. lia.
Qed.

Lemma month_name_facts (i : Z) :
  (1 <= i <= 12)%Z ->
  In (month_name i) months
  /\ all_chars not_digit (month_name i) = true
  /\ all_chars not_newline (month_name i) = true
  /\ index_of (lower_str (month_name i)) a_month 1 = Some i
  /\ exists p c, month_name i = p ++ String c ""
                 /\ String.length p = 2 /\ Str.is_space c = false.
Proof.
  intros H. apply month_index_cases in H. simpl in H.
  repeat (destruct H as [<-|H];
          [split; [vm_compute; tauto|];
           split; [reflexivity|]; split; [reflexivity|];
           split; [reflexivity|];
           match goal with
           | |- exists p c, ?m = _ /\ _ =>
               let v := eval vm_compute in m in
               match v with
               | String ?a (String ?b (String ?c "")) =>
                   exists (String a (String b "")), c
               end
           end; repeat split|]).
  destruct H.
Qed.

Lemma months_length (m : string) : In m months -> String.length m = 3.
Proof.
  intros H. simpl in H.
  repeat (destruct H as [<-|H]; [reflexivity|]). destruct H.
Qed.

Lemma months_not_digit (m : string) :
  In m months -> all_chars not_digit m = true.
Proof.
  intros H. simpl in H.
  repeat (destruct H as [<-|H]; [reflexivity|]). destruct H.
Qed.

Lemma consumes_month (i : Z) (rest : string) :
  (1 <= i <= 12)%Z ->
  consumes (Re.alts (map Re.lit months)) (month_name i) rest (fun g => g).
Proof.
  intros H. apply month_index_cases in H. simpl in H.
  repeat (destruct H as [<-|H];
          [intros k g x Hk; simpl; try rewrite Hk; reflexivity|]).
  destruct H.
Qed.

Lemma consumes_month_i (i : Z) (rest : string) :
  (1 <= i <= 12)%Z ->
  consumes (Re.alts (map Re.lit_i a_month)) (month_name i) rest (fun g => g).
Proof.
  intros H. apply month_index_cases in H. simpl in H.
  repeat (destruct H as [<-|H];
          [intros k g x Hk; simpl; try rewrite Hk; reflexivity|]).
  destruct H.
Qed.

Lemma day_cases (d : Z) :
  (1 <= d <= 31)%Z -> In d (map Z.of_nat (seq 1 31)).
Proof.
  intros H. apply in_map_iff. exists (Z.to_nat d). split; [lia|].
  apply in_seq. lia.
Qed.

Lemma day_string_facts (d : Z) (pad : bool) :
  (1 <= d <= 31)%Z ->
  Str.int (day_string d pad) = Some d
  /\ all_chars not_newline (day_string d pad) = true
  /\ (exists a tail, day_string d pad = String a tail
                     /\ Str.is_digit a = true)
  /\ (forall rest,
        consumes day_alts (day_string d pad) (String "," rest) (fun g => g))
  /\ (forall rest,
        consumes Re.digit_1_2 (day_string d pad) (String "," rest)
                 (fun g => g)).
Proof.
  intros H. apply day_cases in H. simpl in H.
  repeat (destruct H as [<-|H];
          [destruct pad;
           (split; [reflexivity|]; split; [reflexivity|];
            split; [do 2 eexists; split; reflexivity|];
            split; intros rest k g x Hk; simpl; try rewrite Hk; reflexivity)
          |]).
  destruct H.
Qed.

Lemma year_table : forallb year_check (seq 0 (Z.to_nat 10000)) = true.
Proof. vm_compute. reflexivity. Qed.

Lemma year_string_int (y : Z) :
  (0 <= y <= 9999)%Z -> Str.int (year_string y) = Some y.
Proof.
  intros H.
  pose proof (proj1 (forallb_forall _ _) year_table (Z.to_nat y)) as T.
  unfold year_check in T. rewrite Z2Nat.id in T by lia.
  specialize (T ltac:(apply in_seq; lia)).
  destruct (Str.int (year_string y)) as [v|]; [|discriminate].
  apply Z.eqb_eq in T. now subst v.
Qed.

Lemma match_at_consumes (r : Re.re) (w rest : string) f :
  consumes r w rest f -> Re.match_at r (w ++ rest) = Some (f nil, w).
Proof.
  intros H. unfold Re.match_at.
  rewrite (H Re.accept nil (f nil, rest) eq_refl).
  now rewrite length_append, Nat.add_sub, take_append.
Qed.

Lemma valid_date_bounds (y i d : Z) :
  valid_date y i d = true ->
  (1 <= y <= 9999 /\ 1 <= i <= 12 /\ 1 <= d <= 31)%Z.
Proof.
  unfold valid_date. intros H.
  repeat (apply andb_prop in H; destruct H as [H ?]).
  repeat match goal with
         | H : (_ <=? _)%Z = true |- _ => apply Z.leb_le in H
         end.
  assert (Hm : (days_in_month y i <= 31)%Z).
  { unfold days_in_month. destruct ((i =? 2)%Z && is_leap y); [lia|].
    assert (E : In i (map Z.of_nat (seq 1 12))).
    { apply in_map_iff. exists (Z.to_nat i). split; [lia|].
      apply in_seq. lia. }
    simpl in E.
    repeat (destruct E as [<-|E]; [vm_compute; discriminate|]).
    destruct E. }
  lia.
Qed.

Lemma consumes_format_regex (i d y : Z) (pad : bool) (rest : string) :
  (0 <= y <= 9999)%Z -> (1 <= i <= 12)%Z -> (1 <= d <= 31)%Z ->
  consumes format_regex (date_string i d y pad) rest
           (fun g => (date_groups ("b", "d", "Y") i d y pad ++ g)%list).
Proof.
  intros Hy Hi Hd.
  destruct (day_string_facts d pad Hd) as [_ [_ [[a [tl [ED Ha]]] [Hda _]]]].
  destruct (year_string_digits y ltac:(lia))
    as [y1 [y2 [y3 [y4 [EY [H1 [H2 [H3 H4]]]]]]]].
  unfold format_regex, date_string.
  apply (consumes_dated _ _ _ _ _ _ _ a y1 tl _
           (fun g => ("b", month_name i) :: g)
           (fun g => ("d", day_string d pad) :: g)
           (fun g => ("Y", year_string y) :: g) ED
           (digit_not_space a Ha) EY (digit_not_space y1 H1)).
  - intros r. apply consumes_grp. now apply consumes_month_i.
  - intros r. apply consumes_grp. apply Hda.
  - intros r. apply consumes_grp. rewrite EY. now apply consumes_digit_4.
Qed.

Lemma consumes_date_re (i d y : Z) (pad : bool) (rest : string) :
  (0 <= y <= 9999)%Z -> (1 <= i <= 12)%Z -> (1 <= d <= 31)%Z ->
  consumes date_re (date_string i d y pad) rest
           (fun g => (date_groups ("1", "2", "3") i d y pad ++ g)%list).
Proof.
  intros Hy Hi Hd.
  destruct (day_string_facts d pad Hd) as [_ [_ [[a [tl [ED Ha]]] [_ Hda]]]].
  destruct (year_string_digits y ltac:(lia))
    as [y1 [y2 [y3 [y4 [EY [H1 [H2 [H3 H4]]]]]]]].
  unfold date_re, month_re, date_string.
  apply (consumes_dated _ _ _ _ _ _ _ a y1 tl _
           (fun g => ("1", month_name i) :: g)
           (fun g => ("2", day_string d pad) :: g)
           (fun g => ("3", year_string y) :: g) ED
           (digit_not_space a Ha) EY (digit_not_space y1 H1)).
  - intros r. apply consumes_grp. now apply consumes_month.
  - intros r. apply consumes_grp. apply Hda.
  - intros r. apply consumes_grp. rewrite EY. now apply consumes_digit_4.
Qed.

Lemma strptime_printed (i d y : Z) (pad : bool) :
  (0 <= y <= 9999)%Z -> (1 <= i <= 12)%Z -> (1 <= d <= 31)%Z ->
  strptime (date_string i d y pad)
  = if valid_date y i d then Ok (Datetime.mk y i d None)
    else Raise (ValueError "date value out of range").
Proof.
  intros Hy Hi Hd. unfold strptime.
  pose proof (match_at_consumes _ _ "" _
                (consumes_format_regex i d y pad "" Hy Hi Hd)) as Hm.
  rewrite append_nil_r in Hm. rewrite Hm. rewrite Nat.eqb_refl.
  cbn [negb date_groups app Re.group String.eqb Ascii.eqb Bool.eqb].
  destruct (month_name_facts i Hi) as [_ [_ [_ [Hx _]]]].
  destruct (day_string_facts d pad Hd) as [Hdi _].
  now rewrite Hx, Hdi, (year_string_int y Hy).
Qed.

Lemma strptime_usual (i d y : Z) (pad : bool) :
  valid_date y i d = true ->
  strptime (date_string i d y pad) = Ok (Datetime.mk y i d None).
Proof.
  intros Hv. destruct (valid_date_bounds y i d Hv) as [Hy [Hi Hd]].
  rewrite strptime_printed by lia. now rewrite Hv.
Qed.

(** X20. [strptime] reads back a date printed as "Mon D, YYYY", with or
    without a leading zero in the day: for every valid calendar date of
    the years 1 to 9999 it returns that date, without time zone; and the
    date pattern of the parser matches exactly that string, whatever
    follows it. *)
Theorem strptime_date_string (i d y : Z) (pad : bool) (rest : string) :
  valid_date y i d = true ->
  strptime (date_string i d y pad) = Ok (Datetime.mk y i d None)
  /\ Re.match_at date_re (date_string i d y pad ++ rest)
     = Some (date_groups ("1", "2", "3") i d y pad, date_string i d y pad).
Proof.
  intros Hv. split; [now apply strptime_usual|].
  destruct (valid_date_bounds y i d Hv) as [Hy [Hi Hd]].
  pose proof (match_at_consumes _ _ rest _
                (consumes_date_re i d y pad rest ltac:(lia) Hi Hd)) as Hm.
  rewrite Hm. now rewrite List.app_nil_r.
Qed.

Lemma month_matches_inv (mon rest : string) :
  matches month_re mon rest -> In mon months.
Proof.
  intros M. unfold month_re in M.
  inversion M as [| | | | | | | |? ? ? ? M1]; subst. clear M.
  unfold months in M1. cbn [map Re.alts] in M1.
  repeat match goal with
         | H : matches (Re.Alt _ _) _ _ |- _ => inversion H; subst; clear H
         end;
    match goal with
    | H : matches _ _ _ |- _ =>
        first [ apply (lit_matches_inv "Jan") in H
              | apply (lit_matches_inv "Feb") in H
              | apply (lit_matches_inv "Mar") in H
              | apply (lit_matches_inv "Apr") in H
              | apply (lit_matches_inv "May") in H
              | apply (lit_matches_inv "Jun") in H
              | apply (lit_matches_inv "Jul") in H
              | apply (lit_matches_inv "Aug") in H
              | apply (lit_matches_inv "Sep") in H
              | apply (lit_matches_inv "Oct") in H
              | apply (lit_matches_inv "Nov") in H
              | apply (lit_matches_inv "Dec") in H ];
        subst; simpl; tauto
    end.
Qed.

Lemma date_prefix_shape (w rest : string) :
  matches date_re w rest ->
  exists mon ws c w',
    w = mon ++ ws ++ String c w'
    /\ In mon months
    /\ all_chars Str.is_space ws = true
    /\ Str.is_digit c = true.
Proof.
  intros M. unfold date_re, Re.seqs in M. simpl fold_right in M.
  inversion M as [| |? ? w1 x1 ? Hm M1| | | | | |]; subst. clear M.
  inversion M1 as [| |? ? w2 x2 ? Hs M2| | | | | |]; subst. clear M1.
  inversion M2 as [| |? ? w3 x3 ? M3 _| | | | | |]; subst. clear M2.
  inversion M3 as [| | | | | | | |? ? ? ? M4]; subst. clear M3.
  unfold Re.digit_1_2 in M4.
  inversion M4 as [| |? ? w4 x4 ? M5 _| | | | | |]; subst. clear M4.
  inversion M5 as [|? c ? Hc| | | | | | |]; subst.
  inversion Hs as [| | | | | |? ? ? _ Hw| |]; subst.
  exists w1, w2, c, (x4 ++ x3). repeat split.
  - now apply month_matches_inv in Hm.
  - exact Hw.
  - exact Hc.
Qed.

Lemma first_digit_unique (X : string) : forall Y c c' r r',
  all_chars not_digit X = true -> all_chars not_digit Y = true ->
  Str.is_digit c = true -> Str.is_digit c' = true ->
  X ++ String c r = Y ++ String c' r' -> X = Y.
Proof.
  induction X as [|x X IH]; intros [|y Y] c c' r r' HX HY Hc Hc' E;
    simpl in *.
  - reflexivity.
  - injection E as -> _. unfold not_digit in HY. now rewrite Hc in HY.
  - injection E as -> _. unfold not_digit in HX. now rewrite Hc' in HX.
  - injection E as -> E. f_equal.
    apply andb_prop in HX, HY. now apply (IH Y c c' r r').
Qed.

Lemma append_eq_split (c : string) : forall a b d,
  a ++ b = c ++ d -> String.length c <= String.length a ->
  exists e, a = c ++ e /\ d = e ++ b.
Proof.
  induction c as [|x c IH]; intros a b d E L.
  - exists a. auto.
  - destruct a as [|y a]; simpl in L; [lia|].
    simpl in E. injection E as -> E.
    destruct (IH a b d E ltac:(lia)) as [e [-> ->]]. now exists e.
Qed.

Lemma all_space_not_digit (s : string) :
  all_chars Str.is_space s = true -> all_chars not_digit s = true.
Proof.
  induction s as [|c s IH]; [reflexivity|]. simpl. intros H.
  apply andb_prop in H. destruct H as [Hc Hs]. rewrite (IH Hs), andb_true_r.
  unfold not_digit. destruct (Str.is_digit c) eqn:E; [|reflexivity].
  apply digit_not_space in E. congruence.
Qed.

(** No date can be matched from inside a digit-free text that runs into
    a printed date. *)
Lemma no_early_match (N A1 A2 rest : string) (i d y : Z) (pad : bool) :
  all_chars not_digit N = true ->
  N = A1 ++ A2 -> A2 <> "" ->
  (1 <= i <= 12)%Z -> (1 <= d <= 31)%Z ->
  Re.match_at date_re (A2 ++ date_string i d y pad ++ rest) = None.
Proof.
  intros HN EN HA Hi Hd.
  destruct (Re.match_at date_re (A2 ++ date_string i d y pad ++ rest))
    as [[g w]|] eqn:E; [exfalso|reflexivity].
  apply match_at_sound in E. destruct E as [rest' [E M]].
  apply date_prefix_shape in M.
  destruct M as [mon [ws [c [w' [-> [Hmon [Hws Hc]]]]]]].
  destruct (month_name_facts i Hi) as [_ [HMd [_ [_ [p [c3 [EM [Lp Hc3]]]]]]]].
  destruct (day_string_facts d pad Hd) as [_ [_ [[a [tl [ED Ha]]] _]]].
  subst N. rewrite all_chars_append in HN.
  apply andb_prop in HN. destruct HN as [_ HA2].
  assert (EX : (A2 ++ month_name i ++ " ")
               ++ String a (tl ++ ", " ++ year_string y ++ rest)
               = (mon ++ ws) ++ String c (w' ++ rest')).
  { rewrite !append_assoc. rewrite !append_assoc in E.
    unfold date_string in E. rewrite ED in E.
    rewrite !append_assoc in E. exact E. }
  apply first_digit_unique in EX; try assumption.
  - rewrite EM in EX.
    assert (EX' : (A2 ++ p) ++ String c3 " " = mon ++ ws).
    { rewrite <- EX. now rewrite !append_assoc. }
    apply append_eq_split in EX'.
    + destruct EX' as [e [_ Ews]]. rewrite Ews, all_chars_append in Hws.
      apply andb_prop in Hws. destruct Hws as [_ Hws]. simpl in Hws.
      rewrite Hc3 in Hws. discriminate.
    + rewrite (months_length mon Hmon), length_append, Lp.
      destruct A2; [congruence|simpl; lia].
  - rewrite !all_chars_append, HA2, HMd. reflexivity.
  - rewrite all_chars_append, (months_not_digit mon Hmon).
    now rewrite all_space_not_digit.
Qed.

Lemma search_from_first (r : Re.re) (B w : string) (g : Re.groups) :
  Re.match_at r B = Some (g, w) ->
  forall A pos,
    (forall A1 A2, A = A1 ++ A2 -> A2 <> "" ->
                   Re.match_at r (A2 ++ B) = None) ->
    Re.search_from r pos (A ++ B)
    = Some {| Re.m_groups := g; Re.m_group0 := w;
              Re.m_start := pos + String.length A |}.
Proof.
  intros Hm. induction A as [|c A IH]; intros pos H.
  - simpl. rewrite Nat.add_0_r. destruct B; simpl; now rewrite Hm.
  - change (String c A ++ B) with (String c (A ++ B)).
    simpl Re.search_from.
    change (String c (A ++ B)) with (String c A ++ B).
    rewrite (H "" (String c A) eq_refl) by discriminate.
    rewrite IH.
    + simpl. do 2 f_equal. lia.
    + intros A1 A2 -> HA2. apply (H (String c A1) A2); [reflexivity|exact HA2].
Qed.

Lemma date_string_not_newline (i d y : Z) (pad : bool) :
  (0 <= y <= 9999)%Z -> (1 <= i <= 12)%Z -> (1 <= d <= 31)%Z ->
  all_chars not_newline (date_string i d y pad) = true.
Proof.
  intros Hy Hi Hd. unfold date_string.
  destruct (month_name_facts i Hi) as [_ [_ [Hm _]]].
  destruct (day_string_facts d pad Hd) as [_ [Hdn _]].
  destruct (year_string_digits y ltac:(lia))
    as [y1 [y2 [y3 [y4 [EY [H1 [H2 [H3 H4]]]]]]]].
  rewrite !all_chars_append, Hm, Hdn, EY. simpl.
  now rewrite !digit_not_newline.
Qed.

Lemma date_string_length (i d y : Z) (pad : bool) :
  (1 <= i <= 12)%Z -> 9 <= String.length (date_string i d y pad).
Proof.
  intros Hi. unfold date_string.
  destruct (month_name_facts i Hi) as [Hin _].
  rewrite !length_append, (months_length _ Hin).
  unfold year_string. simpl. lia.
Qed.

(** The search finds a printed date that follows a digit-free text. *)
Lemma search_usual (N rest : string) (i d y : Z) (pad : bool) :
  all_chars not_digit N = true ->
  (0 <= y <= 9999)%Z -> (1 <= i <= 12)%Z -> (1 <= d <= 31)%Z ->
  Re.search date_re (N ++ date_string i d y pad ++ rest)
  = Some {| Re.m_groups := date_groups ("1", "2", "3") i d y pad;
            Re.m_group0 := date_string i d y pad;
            Re.m_start := String.length N |}.
Proof.
  intros HN Hy Hi Hd. unfold Re.search.
  pose proof (match_at_consumes _ _ rest _
                (consumes_date_re i d y pad rest Hy Hi Hd)) as Hm.
  rewrite (search_from_first _ _ _ _ Hm N 0).
  - rewrite List.app_nil_r. reflexivity.
  - intros A1 A2 E HA. now apply (no_early_match N A1 A2).
Qed.

Variable hash : string -> Z.

(** The body of the loop on an anchor of the usual shape. *)
Lemma loop_body_usual
      (a : Tag) (arts : list Article) (href T rest : string)
      (i d y : Z) (pad : bool) (dt : datetime) :
  get_href a = Ok href ->
  get_text a = Ok (T ++ "Engineering" ++ date_string i d y pad ++ rest) ->
  Str.contains "/index/" href = true ->
  existsb (fun x => String.eqb (link x) (resolve_link href)) arts = false ->
  all_chars not_digit T = true ->
  Str.contains "Engineering" T = false ->
  all_chars not_newline rest = true ->
  (0 <= y <= 9999)%Z -> (1 <= i <= 12)%Z -> (1 <= d <= 31)%Z ->
  (if valid_date y i d then Ok (Datetime.mk y i d (Some UTC))
   else stable_fallback_date hash href) = Ok dt ->
  loop_body hash a arts
  = Ok (Append {| title := Str.strip T;
                  link := resolve_link href;
                  date := dt;
                  category := "Engineering";
                  description := Str.strip T |}).
Proof.
  intros Hh Ht Hc Hx HT HE Hr Hy Hi Hd Hdt.
  set (R := date_string i d y pad ++ rest) in *.
  assert (Hs : Re.search date_re (T ++ "Engineering" ++ R)
               = Some {| Re.m_groups := date_groups ("1", "2", "3") i d y pad;
                         Re.m_group0 := date_string i d y pad;
                         Re.m_start := String.length T + 11 |}).
  { rewrite <- append_assoc. unfold R.
    rewrite (search_usual (T ++ "Engineering") rest i d y pad); try assumption.
    - now rewrite length_append.
    - now rewrite all_chars_append, HT. }
  assert (HR : all_chars not_newline R = true).
  { unfold R. now rewrite all_chars_append, date_string_not_newline, Hr. }
  assert (Htd : title_and_date hash href (T ++ "Engineering" ++ R)
                = Ok (Str.strip T, dt)).
  { rewrite title_and_date_eq.
    rewrite (title_of_usual_shape T R _ Hs eq_refl HR HE).
    unfold parsed_date. rewrite Hs. cbn [Re.m_group0].
    rewrite (strptime_printed i d y pad Hy Hi Hd).
    destruct (valid_date y i d).
    - injection Hdt as <-. reflexivity.
    - rewrite Hdt. reflexivity. }
  rewrite (loop_body_qualifying hash a arts href _ (Str.strip T) dt Hh Ht Hc).
  - now rewrite Hx.
  - rewrite !length_append. unfold R. rewrite length_append.
    pose proof (date_string_length i d y pad Hi). simpl. lia.
  - exact Htd.
Qed.

(** X21. The usual anchor.  For an anchor whose href contains "/index/"
    and whose text is a title without digits and without "Engineering",
    then "Engineering", then a valid date printed as "Mon D, YYYY" (day
    with or without leading zero), then anything without line feed, and
    whose link is not yet in the list, the loop appends the article with
    the stripped title, the resolved link and that date in UTC. *)
Theorem loop_body_usual_anchor
        (a : Tag) (arts : list Article) (href T rest : string)
        (i d y : Z) (pad : bool) :
  get_href a = Ok href ->
  get_text a = Ok (T ++ "Engineering" ++ date_string i d y pad ++ rest) ->
  Str.contains "/index/" href = true ->
  existsb (fun x => String.eqb (link x) (resolve_link href)) arts = false ->
  all_chars not_digit T = true ->
  Str.contains "Engineering" T = false ->
  all_chars not_newline rest = true ->
  valid_date y i d = true ->
  loop_body hash a arts
  = Ok (Append {| title := Str.strip T;
                  link := resolve_link href;
                  date := Datetime.mk y i d (Some UTC);
                  category := "Engineering";
                  description := Str.strip T |}).
Proof.
  intros Hh Ht Hc Hx HT HE Hr Hv.
  destruct (valid_date_bounds y i d Hv) as [Hy [Hi Hd]].
  apply (loop_body_usual a arts href T rest i d y pad); try assumption;
    try lia.
  now rewrite Hv.
Qed.

(** X22. A printed date that is not a calendar date (day 30 of February,
    day 31 of a 30-day month, 29 February of a common year, year 0000)
    is matched but does not parse: the article keeps its cleaned title
    and gets the fallback date of its href. *)
Theorem loop_body_impossible_date
        (a : Tag) (arts : list Article) (href T rest : string)
        (i d y : Z) (pad : bool) :
  get_href a = Ok href ->
  get_text a = Ok (T ++ "Engineering" ++ date_string i d y pad ++ rest) ->
  Str.contains "/index/" href = true ->
  existsb (fun x => String.eqb (link x) (resolve_link href)) arts = false ->
  all_chars not_digit T = true ->
  Str.contains "Engineering" T = false ->
  all_chars not_newline rest = true ->
  (0 <= y <= 9999)%Z -> (1 <= i <= 12)%Z -> (1 <= d <= 31)%Z ->
  valid_date y i d = false ->
  exists dt,
    stable_fallback_date hash href = Ok dt
    /\ (exists e, strptime (date_string i d y pad) = Raise e)
    /\ loop_body hash a arts
       = Ok (Append {| title := Str.strip T;
                       link := resolve_link href;
                       date := dt;
                       category := "Engineering";
                       description := Str.strip T |}).
Proof.
  intros Hh Ht Hc Hx HT HE Hr Hy Hi Hd Hv.
  destruct (stable_fallback_date_facts hash href) as [dt [Edt _]].
  exists dt. split; [exact Edt|]. split.
  - rewrite strptime_printed by assumption. rewrite Hv. eauto.
  - apply (loop_body_usual a arts href T rest i d y pad); try assumption.
    now rewrite Hv.
Qed.

End UsualDate.

(** ** The further properties at sample inputs *)

Lemma generate_rss_feed_content_witness :
  exists fg,
    generate_rss_feed three_articles = (Ok fg, [Log INFO FeedGenerated])
    /\ List.length (fg_entries fg) = 3.
Proof.
  destruct (generate_rss_feed_content three_articles)
    as [fg [H1 [_ [_ [_ [H5 _]]]]]].
  - repeat constructor.
  - exists fg. split; assumption.
Defined.

Lemma generate_rss_feed_ok_iff_witness :
  Forall (fun a => aware (date a) = true) three_articles.
Proof.
  apply (proj1 (generate_rss_feed_ok_iff three_articles)).
  eexists. vm_compute. reflexivity.
Defined.

Lemma main_true_only_if_witness :
  exists html,
    http_response (ok_env "<html/>") = Ok html
    /\ fst (parse_engineering_html length_hash
              (fixed_document sample_tags) html) <> [].
Proof.
  destruct (proj1 (main_true_only_if length_hash (fixed_document sample_tags)
                     (ok_env "<html/>")) eq_refl)
    as [html [H1 [H2 _]]].
  exists html. split; assumption.
Defined.

Lemma main_success_trace_witness :
  exists fg,
    In (WriteFile "feeds/feed_openai_engineering.xml" fg)
       (snd (main length_hash (fixed_document sample_tags)
               (ok_env "<html/>"))).
Proof.
  destruct (main_success_trace length_hash (fixed_document sample_tags)
              (ok_env "<html/>") eq_refl) as [html [fg [_ [_ E]]]].
  exists fg. rewrite E. cbn [snd].
  apply in_or_app. right. apply in_or_app. right. simpl. tauto.
Defined.

Lemma main_fetch_error_witness :
  fst (main length_hash (fixed_document sample_tags) offline_env) = false.
Proof.
  rewrite (main_fetch_error length_hash (fixed_document sample_tags)
             offline_env (OtherError "503 Server Error") eq_refl).
  reflexivity.
Defined.

Lemma main_filesystem_error_witness :
  fst (main length_hash (fixed_document sample_tags)
         (read_only_env "<html/>")) = false.
Proof.
  destruct (main_filesystem_error length_hash (fixed_document sample_tags)
              (read_only_env "<html/>") "<html/>"
              (OtherError "Permission denied")) as [made [E _]].
  - reflexivity.
  - vm_compute. discriminate.
  - right. split; [exists tt|]; reflexivity.
  - rewrite E. reflexivity.
Defined.

Lemma parse_repeated_anchors_witness :
  fst (parse_engineering_html length_hash sample_document "twice")
  = fst (parse_engineering_html length_hash sample_document "once").
Proof.
  apply (parse_repeated_anchors length_hash sample_document
           "once" "twice" sample_tags).
  - reflexivity.
  - intros c Hc. now apply in_map.
Defined.


Lemma parse_article_fields_witness :
  Str.strip (title sample_article) = title sample_article
  /\ Str.contains "/index/" (link sample_article) = true.
Proof.
  destruct (parse_article_fields length_hash (fixed_document sample_tags)
              "" sample_article) as [_ [_ [H3 [H4 _]]]].
  - vm_compute. left. reflexivity.
  - split; assumption.
Defined.


Lemma stable_fallback_date_collision_witness :
  stable_fallback_date length_hash "/index/a"
  = stable_fallback_date length_hash "/index/b".
Proof.
  apply (proj2 (stable_fallback_date_collision length_hash
                  "/index/a" "/index/b")).
  reflexivity.
Defined.

Lemma title_without_marker_witness :
  title_of "Launch recap for Jan 5, 2024 in review"
  = "Launch recap for Jan 5, 2024 in review".
Proof.
  rewrite (title_without_marker "Launch recap for Jan 5, 2024 in review"
             eq_refl).
  reflexivity.
Defined.

Lemma title_no_date_removes_marker_witness :
  title_of ("Scaling the platform " ++ "Engineering" ++ " at OpenAI")
  = "Scaling the platform  at OpenAI".
Proof.
  rewrite (title_no_date_removes_marker "Scaling the platform " " at OpenAI"
             eq_refl eq_refl eq_refl).
  reflexivity.
Defined.

Lemma title_with_date_is_prefix_witness :
  exists j,
    title_of "New Model ReleaseEngineeringJan 5, 2024"
    = Str.strip (Str.take j "New Model ReleaseEngineeringJan 5, 2024").
Proof.
  destruct (title_with_date_is_prefix
              "New Model ReleaseEngineeringJan 5, 2024") as [j [_ [E _]]].
  - vm_compute. discriminate.
  - now exists j.
Defined.

Lemma title_usual_shape_witness :
  title_of ("  New Model Release " ++ "Engineering" ++ "Jan 5, 2024")
  = "New Model Release".
Proof.
  rewrite (title_usual_shape "  New Model Release " "Jan 5, 2024"
             {| Re.m_groups := [("3", "2024"); ("2", "5"); ("1", "Jan")];
                Re.m_group0 := "Jan 5, 2024"; Re.m_start := 31 |}
             eq_refl eq_refl eq_refl eq_refl).
  reflexivity.
Defined.

Lemma no_digit_falls_back_witness :
  Re.search date_re "An article whose anchor has no date" = None.
Proof.
  exact (proj1 (no_digit_falls_back length_hash "/index/no-date"
                  "An article whose anchor has no date" eq_refl)).
Defined.

Lemma strptime_date_string_witness :
  strptime "Jan 05, 2024" = Ok (Datetime.mk 2024 1 5 None).
Proof.
  exact (proj1 (strptime_date_string 1 5 2024 true "" eq_refl)).
Defined.

Lemma loop_body_usual_anchor_witness :
  loop_body length_hash (usual_anchor 1 5 2024) [] = Ok (Append sample_article).
Proof.
  apply (loop_body_usual_anchor length_hash (usual_anchor 1 5 2024) []
           "/index/new-model" "New Model Release" "" 1 5 2024 false);
    reflexivity.
Defined.

Lemma loop_body_impossible_date_witness :
  exists dt,
    stable_fallback_date length_hash "/index/new-model" = Ok dt
    /\ loop_body length_hash (usual_anchor 2 30 2024) []
       = Ok (Append {| title := "New Model Release";
                       link := "https://openai.com/index/new-model";
                       date := dt;
                       category := "Engineering";
                       description := "New Model Release" |}).
Proof.
  destruct (loop_body_impossible_date length_hash (usual_anchor 2 30 2024) []
              "/index/new-model" "New Model Release" "" 2 30 2024 false)
    as [dt [H1 [_ H3]]]; try reflexivity; try lia.
  exists dt. split; assumption.
Defined.
